(** * dm-data-temporal-masker: a shallow embedding of [main.py]

    The program masks the date held in one column of a comma-separated
    text file.  Three strategies exist: a random shift by whole days,
    bucketing to the start of the week or month, and randomising the
    time of day.

    The development follows the layers of the program:
    - [Calendar]: the proleptic Gregorian calendar of Python's
      [datetime] module (ordinals, weekday, day arithmetic);
    - [Text]: the string operations the program calls ([strip],
      [split], [join], line iteration);
    - [Codec]: [strptime] and [strftime] for format patterns built
      from the directives %Y %m %d %H %M %S, %% and literal text;
    - [Runtime]: the effects of the program (pseudo-random draws, the
      log, files, exceptions) as a state-and-exception monad;
    - the functions of [main.py] themselves, under their own names. *)

From Stdlib Require Import ZArith Lia Ascii String List Bool.
From stdpp Require Import base gmap strings list.

Local Open Scope Z_scope.

(** ** The calendar of [datetime] *)

Module Calendar.

Definition MINYEAR : Z := 1.
Definition MAXYEAR : Z := 9999.
Definition MAXORDINAL : Z := 3652059.

(** [_is_leap(year)] *)
Definition is_leap (year : Z) : bool :=
  (year mod 4 =? 0) && (negb (year mod 100 =? 0) || (year mod 400 =? 0)).

(** [_days_before_year(year)]: days before January 1st of [year]. *)
Definition days_before_year (year : Z) : Z :=
  let y := year - 1 in
  y * 365 + y / 4 - y / 100 + y / 400.

(** The table [_DAYS_IN_MONTH], indexed from 1 (index 0 holds -1). *)
Definition DAYS_IN_MONTH (month : Z) : Z :=
  match month with
  | 1 => 31 | 2 => 28 | 3 => 31 | 4 => 30 | 5 => 31 | 6 => 30
  | 7 => 31 | 8 => 31 | 9 => 30 | 10 => 31 | 11 => 30 | 12 => 31
  | _ => -1
  end.

(** The table [_DAYS_BEFORE_MONTH], indexed from 1 (index 0 holds -1). *)
Definition DAYS_BEFORE_MONTH (month : Z) : Z :=
  match month with
  | 1 => 0 | 2 => 31 | 3 => 59 | 4 => 90 | 5 => 120 | 6 => 151
  | 7 => 181 | 8 => 212 | 9 => 243 | 10 => 273 | 11 => 304 | 12 => 334
  | _ => -1
  end.

Definition Z_of_bool (b : bool) : Z := if b then 1 else 0.

(** [_days_in_month(year, month)] *)
Definition days_in_month (year month : Z) : Z :=
  if (month =? 2) && is_leap year then 29 else DAYS_IN_MONTH month.

(** [_days_before_month(year, month)] *)
Definition days_before_month (year month : Z) : Z :=
  DAYS_BEFORE_MONTH month + Z_of_bool ((2 <? month) && is_leap year).

(** [_ymd2ord(year, month, day)]: 0001-01-01 is day 1. *)
Definition ymd2ord (year month day : Z) : Z :=
  days_before_year year + days_before_month year month + day.

Definition DI400Y : Z := 146097.
Definition DI100Y : Z := 36524.
Definition DI4Y : Z := 1461.

(** The tail of [_ord2ymd]: month and day from the zero-based day of
    the year [n], given whether the year is a leap year. *)
Definition month_and_day (leapyear : bool) (n : Z) : Z * Z :=
  let month := Z.shiftr (n + 50) 5 in
  let preceding := DAYS_BEFORE_MONTH month + Z_of_bool ((2 <? month) && leapyear) in
  if n <? preceding then
    let month' := month - 1 in
    let preceding' :=
      preceding - (DAYS_IN_MONTH month' + Z_of_bool ((month' =? 2) && leapyear)) in
    (month', n - preceding' + 1)
  else (month, n - preceding + 1).

(** [_ord2ymd(n)]: the inverse of [ymd2ord]. *)
Definition ord2ymd (n : Z) : Z * Z * Z :=
  let n := n - 1 in
  let n400 := n / DI400Y in
  let n := n mod DI400Y in
  let year := n400 * 400 + 1 in
  let n100 := n / DI100Y in
  let n := n mod DI100Y in
  let n4 := n / DI4Y in
  let n := n mod DI4Y in
  let n1 := n / 365 in
  let n := n mod 365 in
  let year := year + (n100 * 100 + n4 * 4 + n1) in
  if (n1 =? 4) || (n100 =? 4) then (year - 1, 12, 31)
  else
    let leapyear := (n1 =? 3) && (negb (n4 =? 24) || (n100 =? 3)) in
    let '(month, day) := month_and_day leapyear n in
    (year, month, day).

(** A [datetime.datetime] value.  The program never produces a
    microsecond other than 0 nor a time zone, so neither is kept. *)
Record datetime : Type := mkdt {
  year : Z; month : Z; day : Z;
  hour : Z; minute : Z; second : Z
}.

Definition valid_date (y m d : Z) : bool :=
  (MINYEAR <=? y) && (y <=? MAXYEAR) && (1 <=? m) && (m <=? 12) &&
  (1 <=? d) && (d <=? days_in_month y m).

Definition valid_time (H M S : Z) : bool :=
  (0 <=? H) && (H <=? 23) && (0 <=? M) && (M <=? 59) && (0 <=? S) && (S <=? 59).

Definition valid (dt : datetime) : bool :=
  valid_date (year dt) (month dt) (day dt) &&
  valid_time (hour dt) (minute dt) (second dt).

(** The constructor [datetime(y, m, d, H, M, S)]: [None] stands for the
    [ValueError] raised on a field out of range. *)
Definition make (y m d H M S : Z) : option datetime :=
  if valid_date y m d && valid_time H M S then Some (mkdt y m d H M S) else None.

(** [toordinal()] and [weekday()] (Monday is 0, Sunday is 6). *)
Definition toordinal (dt : datetime) : Z := ymd2ord (year dt) (month dt) (day dt).
Definition weekday (dt : datetime) : Z := (toordinal dt + 6) mod 7.

(** [dt + timedelta(days=k)].  Python turns [dt] into a timedelta of
    [toordinal()] days and the seconds of the clock time, adds [k] days,
    splits the seconds again with [divmod] and rebuilds the date from
    the ordinal; [None] stands for the [OverflowError] raised when the
    ordinal leaves [1..MAXORDINAL] (which is also what an oversized
    timedelta ends in). *)
Definition add_days (dt : datetime) (k : Z) : option datetime :=
  let days := toordinal dt + k in
  let seconds := hour dt * 3600 + minute dt * 60 + second dt in
  let H := seconds / 3600 in
  let rem := seconds mod 3600 in
  let M := rem / 60 in
  let S := rem mod 60 in
  if (0 <? days) && (days <=? MAXORDINAL) then
    let '(y, m, d) := ord2ymd days in Some (mkdt y m d H M S)
  else None.

(** [dt.replace(day=d)]: [None] stands for the [ValueError] of an
    impossible date. *)
Definition replace_day (dt : datetime) (d : Z) : option datetime :=
  make (year dt) (month dt) d (hour dt) (minute dt) (second dt).

(** [datetime.combine(dt.date(), time(H, M, S))]: [None] stands for the
    [ValueError] raised by [time(...)] on a field out of range. *)
Definition combine_time (dt : datetime) (H M S : Z) : option datetime :=
  if valid_time H M S then Some (mkdt (year dt) (month dt) (day dt) H M S) else None.

End Calendar.

(** ** Text operations

    A Python [str] is modelled by [string]; its characters are the code
    points below 256. *)

Module Text.

Definition code (c : ascii) : Z := Z.of_N (N_of_ascii c).

(** [str.isspace()] on one character, which is also the class [\s] of
    the [re] module: tab to carriage return, the four separators
    0x1c..0x1f, space, NEL and the no-break space. *)
Definition is_space (c : ascii) : bool :=
  let n := code c in
  ((9 <=? n) && (n <=? 13)) || ((28 <=? n) && (n <=? 32)) ||
  (n =? 133) || (n =? 160).

(** Lower-casing of one character, as the [re] module does it under
    [IGNORECASE]: A..Z and the accented capitals 0xc0..0xde but the
    multiplication sign 0xd7. *)
Definition lower (c : ascii) : ascii :=
  let n := code c in
  if ((65 <=? n) && (n <=? 90)) ||
     ((192 <=? n) && (n <=? 222) && negb (n =? 215))
  then ascii_of_N (Z.to_N (n + 32)) else c.

Definition is_empty (s : string) : bool :=
  match s with EmptyString => true | String _ _ => false end.

(** [s.lstrip()], [s.rstrip()] and [s.strip()] *)
Fixpoint lstrip (s : string) : string :=
  match s with
  | EmptyString => EmptyString
  | String c s' => if is_space c then lstrip s' else s
  end.

Fixpoint rstrip (s : string) : string :=
  match s with
  | EmptyString => EmptyString
  | String c s' =>
      let r := rstrip s' in
      if is_space c && is_empty r then EmptyString else String c r
  end.

Definition strip (s : string) : string := rstrip (lstrip s).

(** [s.split(sep)] for a one-character separator: never an empty list. *)
Fixpoint split (sep : ascii) (s : string) : list string :=
  match s with
  | EmptyString => [EmptyString]
  | String c s' =>
      if Ascii.eqb c sep then EmptyString :: split sep s'
      else match split sep s' with
           | p :: ps => String c p :: ps
           | [] => [String c EmptyString]
           end
  end.

(** [sep.join(parts)] *)
Definition join (sep : string) (parts : list string) : string :=
  String.concat sep parts.

Definition LF : ascii := "010"%char.
Definition CR : ascii := "013"%char.
Definition newline : string := String LF EmptyString.

(** Reading in text mode translates the line endings CR LF and CR
    to LF (universal newlines). *)
Fixpoint universal_newlines (s : string) : string :=
  match s with
  | EmptyString => EmptyString
  | String c s' =>
      if Ascii.eqb c CR then
        match s' with
        | String c' _ =>
            if Ascii.eqb c' LF then universal_newlines s'
            else String LF (universal_newlines s')
        | EmptyString => String LF EmptyString
        end
      else String c (universal_newlines s')
  end.

(** Iterating over a text file yields its lines, each with its
    terminating LF; only the last one may lack it. *)
Fixpoint split_lines (s : string) : list string :=
  match s with
  | EmptyString => []
  | String c s' =>
      if Ascii.eqb c LF then newline :: split_lines s'
      else match split_lines s' with
           | l :: ls => String c l :: ls
           | [] => [String c EmptyString]
           end
  end.

Definition readlines (content : string) : list string :=
  split_lines (universal_newlines content).

(** Python's list indexing: a negative index counts from the end;
    [None] stands for [IndexError]. *)
Definition py_index (len : nat) (i : Z) : option nat :=
  if (0 <=? i) && (i <? Z.of_nat len) then Some (Z.to_nat i)
  else if (i <? 0) && (- Z.of_nat len <=? i) then Some (Z.to_nat (Z.of_nat len + i))
  else None.

End Text.

(** ** Effects: exceptions, random draws, the log and the files *)

Module Runtime.

Inductive exn : Type :=
  | ValueError
  | OverflowError
  | IndexError
  | ReError                  (* [re.error]: not a [ValueError] *)
  | FileNotFoundError
  | PermissionError
  | SystemExit (status : Z). (* not a subclass of [Exception] *)

Definition is_Exception (e : exn) : bool :=
  match e with SystemExit _ => false | _ => true end.

Inductive result (A : Type) : Type :=
  | Ok (a : A)
  | Raise (e : exn).
Arguments Ok {A} a.
Arguments Raise {A} e.

Inductive level : Type := INFO | WARNING | ERROR.

(** The log records of the program, one constructor per message. *)
Inductive message : Type :=
  | ErrorParsingDate (date_str : string) (e : exn)
  | UnexpectedError (e : exn)
  | InvalidBucketInterval (bucket_interval : string)
  | NotEnoughColumns (line : string)
  | FailedToMask (line : string)
  | InputFileNotFound (input_file : string)
  | MaskingComplete.

Inductive io_event : Type :=
  | OpenRead (path : string)
  | OpenWrite (path : string)
  | PrintUsage (msg : string)
  | PrintHelp.

(** The state the program acts on.  [draws] is the stream of raw
    values of the process-wide generator; [files] maps a path to the
    text of the file there; a path in [read_only] cannot be opened
    for writing.  A path stands for the file it names: two spellings
    of one file are one path here.  The text of a file is its content
    as text mode decodes it; a file whose bytes do not decode (reading
    it raises [UnicodeDecodeError]) has no text and is not a file of
    this model, and of the failures of [open(path, 'w')] only the
    refusal of access is kept. *)
Record state : Type := mkstate {
  draws : nat -> Z;
  log : list (level * message);
  files : gmap string string;
  read_only : gset string;
  trace : list io_event
}.

(** State updates. *)
Definition next_draw (st : state) : state :=
  mkstate (fun n => draws st (S n)) (log st) (files st) (read_only st) (trace st).
Definition add_log (l : level) (m : message) (st : state) : state :=
  mkstate (draws st) (log st ++ [(l, m)]) (files st) (read_only st) (trace st).
Definition add_event (ev : io_event) (st : state) : state :=
  mkstate (draws st) (log st) (files st) (read_only st) (trace st ++ [ev]).
Definition set_files (fs : gmap string string) (st : state) : state :=
  mkstate (draws st) (log st) fs (read_only st) (trace st).

(** The content of the file at a path (empty when there is none). *)
Definition content (path : string) (st : state) : string :=
  default EmptyString (files st !! path).

(** The state after [text] is appended to the file at [path]. *)
Definition append_file (path text : string) (st : state) : state :=
  set_files (<[path := String.append (content path st) text]> (files st)) st.

Definition M (A : Type) : Type := state -> result A * state.

Definition ret {A} (a : A) : M A := fun st => (Ok a, st).
Definition raise {A} (e : exn) : M A := fun st => (Raise e, st).
Definition bind {A B} (m : M A) (k : A -> M B) : M B :=
  fun st => match m st with
            | (Ok a, st') => k a st'
            | (Raise e, st') => (Raise e, st')
            end.
(** [try: m except <handles>: h] *)
Definition try_except {A} (m : M A) (handles : exn -> bool) (h : exn -> M A) : M A :=
  fun st => match m st with
            | (Ok a, st') => (Ok a, st')
            | (Raise e, st') => if handles e then h e st' else (Raise e, st')
            end.

Definition lift {A} (e : exn) (o : option A) : M A :=
  match o with Some a => ret a | None => raise e end.

Definition logging (l : level) (m : message) : M unit :=
  fun st => (Ok tt, add_log l m st).

Definition emit (ev : io_event) : M unit :=
  fun st => (Ok tt, add_event ev st).

(** [random.randint(a, b)]: an integer N with a <= N <= b, taken from
    the next raw value of the generator; [ValueError] on an empty
    range. *)
Definition randint (a b : Z) : M Z :=
  fun st =>
    if b <? a then (Raise ValueError, st)
    else (Ok (a + draws st 0%nat mod (b - a + 1)), next_draw st).

(** [open(path, 'r')] *)
Definition open_read (path : string) : M unit :=
  fun st =>
    match files st !! path with
    | Some _ => (Ok tt, add_event (OpenRead path) st)
    | None => (Raise FileNotFoundError, add_event (OpenRead path) st)
    end.

(** [open(path, 'w')]: creates or truncates the file. *)
Definition open_write (path : string) : M unit :=
  fun st =>
    if decide (path ∈ read_only st)
    then (Raise PermissionError, add_event (OpenWrite path) st)
    else (Ok tt, add_event (OpenWrite path)
                   (set_files (<[path := EmptyString]> (files st)) st)).

(** The lines an open input file yields. *)
Definition read_lines (path : string) : M (list string) :=
  fun st => (Ok (Text.readlines (content path st)), st).

(** [outfile.write(text)] *)
Definition write (path : string) (text : string) : M unit :=
  fun st => (Ok tt, append_file path text st).

End Runtime.

Declare Scope py_scope.
Delimit Scope py_scope with py.
Notation "x <- m ;; k" := (Runtime.bind m (fun x => k))
  (at level 100, m at level 99, k at level 200, right associativity) : py_scope.
Notation "m ;;; k" := (Runtime.bind m (fun _ => k))
  (at level 100, k at level 200, right associativity) : py_scope.

(** ** The date codec: [strptime] and [strftime]

    A format pattern is kept in parsed form.  The patterns covered are
    those built from the directives %Y %m %d %H %M %S, the escape %%
    and literal characters. *)

Module Codec.
Import Calendar Text Runtime.

Inductive directive : Type := dir_Y | dir_m | dir_d | dir_H | dir_M | dir_S.

Inductive item : Type :=
  | Lit (c : ascii)
  | Dir (d : directive).

Definition format : Type := list item.

Definition directive_of_char (c : ascii) : option directive :=
  match c with
  | "Y"%char => Some dir_Y
  | "m"%char => Some dir_m
  | "d"%char => Some dir_d
  | "H"%char => Some dir_H
  | "M"%char => Some dir_M
  | "S"%char => Some dir_S
  | _ => None
  end.

(** Reads the concrete syntax of a pattern; [None] when the text is not
    a pattern of the fragment above. *)
Fixpoint parse_format (s : string) : option format :=
  match s with
  | EmptyString => Some []
  | String c s' =>
      if Ascii.eqb c "%" then
        match s' with
        | EmptyString => None
        | String c' s'' =>
            let it := if Ascii.eqb c' "%" then Some (Lit "%") else Dir <$> directive_of_char c' in
            match it, parse_format s'' with
            | Some i, Some f => Some (i :: f)
            | _, _ => None
            end
        end
      else cons (Lit c) <$> parse_format s'
  end.

Definition directive_eqb (a b : directive) : bool :=
  match a, b with
  | dir_Y, dir_Y | dir_m, dir_m | dir_d, dir_d
  | dir_H, dir_H | dir_M, dir_M | dir_S, dir_S => true
  | _, _ => false
  end.

Fixpoint directives (f : format) : list directive :=
  match f with
  | [] => []
  | Dir d :: f' => d :: directives f'
  | Lit _ :: f' => directives f'
  end.

Fixpoint dup_free (ds : list directive) : bool :=
  match ds with
  | [] => true
  | d :: ds' => negb (existsb (directive_eqb d) ds') && dup_free ds'
  end.

(** *** Formatting *)

Definition digit_char (n : Z) : ascii := ascii_of_N (Z.to_N (48 + n)).

(** Two and four decimal digits, zero-padded (for 0..99 and 0..9999). *)
Definition pad2 (n : Z) : string :=
  String (digit_char (n / 10)) (String (digit_char (n mod 10)) EmptyString).
Definition pad4 (n : Z) : string :=
  String (digit_char (n / 1000)) (String (digit_char (n / 100 mod 10)) (pad2 (n mod 100))).

Definition field (d : directive) (dt : datetime) : Z :=
  match d with
  | dir_Y => year dt | dir_m => month dt | dir_d => day dt
  | dir_H => hour dt | dir_M => minute dt | dir_S => second dt
  end.

(** A number of 0..9999 in decimal, with no padding. *)
Definition decimal (n : Z) : string :=
  if n <? 10 then String (digit_char n) EmptyString
  else if n <? 100 then pad2 n
  else if n <? 1000 then String (digit_char (n / 100)) (pad2 (n mod 100))
  else pad4 n.

(** The text of one field.  [strftime] hands the format to the C
    library: month, day, hour, minute and second are written with two
    digits; the year of %Y is written as glibc writes it, in decimal
    with no padding, so with fewer than four digits before the year
    1000. *)
Definition show (d : directive) (v : Z) : string :=
  match d with dir_Y => decimal v | _ => pad2 v end.

(** [dt.strftime(fmt)] *)
Fixpoint strftime (dt : datetime) (fmt : format) : string :=
  match fmt with
  | [] => EmptyString
  | Lit c :: fmt' => String c (strftime dt fmt')
  | Dir d :: fmt' => String.append (show d (field d dt)) (strftime dt fmt')
  end.

(** *** Parsing

    [_strptime] turns the format into a regular expression: a literal
    character matches itself, ignoring case; a run of whitespace
    becomes [\s+]; a directive becomes a named group.  The expression
    is matched at the start of the text with the backtracking order of
    the [re] module, and the whole text must be consumed by that first
    match. *)

Inductive re_item : Type :=
  | RChar (c : ascii)
  | RSpaces
  | RGroup (d : directive).

Fixpoint compile (f : format) : list re_item :=
  match f with
  | [] => []
  | Lit c :: f' =>
      if is_space c then
        match compile f' with
        | RSpaces :: r => RSpaces :: r
        | r => RSpaces :: r
        end
      else RChar c :: compile f'
  | Dir d :: f' => RGroup d :: compile f'
  end.

(** A character class: an inclusive range of characters. *)
Definition cls : Type := ascii * ascii.
Definition in_cls (k : cls) (c : ascii) : bool :=
  (code (fst k) <=? code c) && (code c <=? code (snd k)).

Definition one (c : ascii) : cls := (c, c).
Definition digit : cls := ("0"%char, "9"%char).

(** The alternatives of each group, in the order of [_strptime.TimeRE]. *)
Definition alternatives (d : directive) : list (list cls) :=
  match d with
  | dir_Y => [[digit; digit; digit; digit]]
  | dir_m => [[one "1"; ("0", "2")]; [one "0"; ("1", "9")]; [("1", "9")]]%char
  | dir_d => [[one "3"; ("0", "1")]; [("1", "2"); digit]; [one "0"; ("1", "9")];
              [("1", "9")]; [one " "; ("1", "9")]]%char
  | dir_H => [[one "2"; ("0", "3")]; [("0", "1"); digit]; [digit]]%char
  | dir_M => [[("0", "5"); digit]; [digit]]%char
  | dir_S => [[one "6"; ("0", "1")]; [("0", "5"); digit]; [digit]]%char
  end.

Fixpoint match_alt (a : list cls) (s : string) : option (string * string) :=
  match a with
  | [] => Some (EmptyString, s)
  | k :: a' =>
      match s with
      | String c s' =>
          if in_cls k c then
            match match_alt a' s' with
            | Some (tok, rest) => Some (String c tok, rest)
            | None => None
            end
          else None
      | EmptyString => None
      end
  end.

(** [int(token)]: surrounding whitespace is ignored. *)
Fixpoint int_acc (acc : Z) (s : string) : Z :=
  match s with
  | EmptyString => acc
  | String c s' =>
      if is_space c then int_acc acc s' else int_acc (acc * 10 + (code c - 48)) s'
  end.
Definition int (s : string) : Z := int_acc 0 s.

(** Alternation: the first alternative after which the rest of the
    expression matches. *)
Fixpoint first_alt {R} (alts : list (list cls)) (s : string)
    (k : string -> string -> option R) : option R :=
  match alts with
  | [] => None
  | a :: alts' =>
      match match_alt a s with
      | Some (tok, rest) =>
          match k tok rest with
          | Some r => Some r
          | None => first_alt alts' s k
          end
      | None => first_alt alts' s k
      end
  end.

(** The greedy tail of [\s+]: as many whitespace characters as
    possible, giving them back one at a time. *)
Fixpoint spaces {R} (k : string -> option R) (s : string) : option R :=
  match s with
  | String c s' =>
      if is_space c then
        match spaces k s' with
        | Some r => Some r
        | None => k s
        end
      else k s
  | EmptyString => k s
  end.

Definition same_letter (c c' : ascii) : bool := Ascii.eqb (lower c) (lower c').

(** [re.match]: the groups found and the unconsumed text. *)
Fixpoint rmatch (p : list re_item) (s : string) : option (list (directive * Z) * string) :=
  match p with
  | [] => Some ([], s)
  | RChar c :: p' =>
      match s with
      | String c' s' => if same_letter c c' then rmatch p' s' else None
      | EmptyString => None
      end
  | RSpaces :: p' =>
      match s with
      | String c' s' => if is_space c' then spaces (rmatch p') s' else None
      | EmptyString => None
      end
  | RGroup d :: p' =>
      first_alt (alternatives d) s
        (fun tok rest =>
           match rmatch p' rest with
           | Some (found, r) => Some ((d, int tok) :: found, r)
           | None => None
           end)
  end.

Fixpoint found_or (d : directive) (dflt : Z) (found : list (directive * Z)) : Z :=
  match found with
  | [] => dflt
  | (d', v) :: found' => if directive_eqb d d' then v else found_or d dflt found'
  end.

(** [datetime.strptime(data_string, fmt)].  A directive given twice is
    a [re.error]; text that does not match, text left over and a field
    out of range are [ValueError]s.  Fields absent from the format
    default to 1900-01-01 00:00:00. *)
Definition strptime (data_string : string) (fmt : format) : result datetime :=
  if negb (dup_free (directives fmt)) then Raise ReError
  else
    match rmatch (compile fmt) data_string with
    | None => Raise ValueError
    | Some (found, rest) =>
        if negb (is_empty rest) then Raise ValueError
        else
          match make (found_or dir_Y 1900 found) (found_or dir_m 1 found)
                     (found_or dir_d 1 found) (found_or dir_H 0 found)
                     (found_or dir_M 0 found) (found_or dir_S 0 found) with
          | Some dt => Ok dt
          | None => Raise ValueError
          end
    end.

End Codec.

(** ** The functions of [main.py] *)

Import Calendar Text Runtime Codec.
Local Open Scope py_scope.

Definition of_result {A} (r : result A) : M A :=
  match r with Ok a => ret a | Raise e => raise e end.

(** The two [except] clauses the three masking functions share:
    [ValueError] first, then any other [Exception]; both log an error
    and return [None]. *)
Definition except_log (date_str : string) (m : M (option string)) : M (option string) :=
  try_except m is_Exception
    (fun e =>
       match e with
       | ValueError => logging ERROR (ErrorParsingDate date_str e) ;;; ret None
       | _ => logging ERROR (UnexpectedError e) ;;; ret None
       end).

Definition shift_date (date_str : string) (date_format : format) (shift_days : Z)
    : M (option string) :=
  except_log date_str
    (date_object <- of_result (strptime date_str date_format) ;;
     random_shift <- randint (- shift_days) shift_days ;;
     new_date <- lift OverflowError (add_days date_object random_shift) ;;
     ret (Some (strftime new_date date_format))).

Definition bucket_date (date_str : string) (date_format : format) (bucket_interval : string)
    : M (option string) :=
  except_log date_str
    (date_object <- of_result (strptime date_str date_format) ;;
     if String.eqb bucket_interval "day" then
       ret (Some (strftime date_object date_format))
     else if String.eqb bucket_interval "week" then
       start_of_week <- lift OverflowError (add_days date_object (- weekday date_object)) ;;
       ret (Some (strftime start_of_week date_format))
     else if String.eqb bucket_interval "month" then
       first <- lift ValueError (replace_day date_object 1) ;;
       ret (Some (strftime first date_format))
     else
       logging ERROR (InvalidBucketInterval bucket_interval) ;;; ret None).

Definition randomize_time (date_str : string) (date_format : format) : M (option string) :=
  except_log date_str
    (date_object <- of_result (strptime date_str date_format) ;;
     H <- randint 0 23 ;;
     Mi <- randint 0 59 ;;
     S <- randint 0 59 ;;
     new_datetime <- lift ValueError (combine_time date_object H Mi S) ;;
     ret (Some (strftime new_datetime date_format))).

(** Truth value of an optional string: [None] and the empty string are
    false. *)
Definition truthy (o : option string) : bool :=
  match o with
  | Some s => negb (is_empty s)
  | None => false
  end.

(** The chain of lines 99..106: which strategy masks the field. *)
Definition mask (date_str : string) (date_format : format) (shift_days : Z)
    (bucket_interval : option string) (randomize_time_flag : bool) : M (option string) :=
  if 0 <? shift_days then shift_date date_str date_format shift_days
  else if truthy bucket_interval then
    bucket_date date_str date_format (default EmptyString bucket_interval)
  else if randomize_time_flag then randomize_time date_str date_format
  else ret (Some date_str).

(** The body of the loop of [process_data], for one line of the input. *)
Definition process_line (outfile : string) (column_index : Z) (date_format : format)
    (shift_days : Z) (bucket_interval : option string) (randomize_time_flag : bool)
    (line : string) : M unit :=
  let line := strip line in
  if is_empty line then write outfile newline
  else
    let parts := split "," line in
    if Z.of_nat (length parts) <=? column_index then
      logging WARNING (NotEnoughColumns line) ;;;
      write outfile (String.append line newline)
    else
      i <- lift IndexError (py_index (length parts) column_index) ;;
      let date_str := strip (nth i parts EmptyString) in
      masked_date <- mask date_str date_format shift_days bucket_interval randomize_time_flag ;;
      match masked_date with
      | None =>
          logging WARNING (FailedToMask line) ;;;
          write outfile (String.append line newline)
      | Some masked =>
          write outfile (String.append (join "," (<[i := masked]> parts)) newline)
      end.

Fixpoint for_each {A} (l : list A) (body : A -> M unit) : M unit :=
  match l with
  | [] => ret tt
  | x :: l' => body x ;;; for_each l' body
  end.

Definition process_data (input_file output_file : string) (column_index : Z)
    (date_format : format) (shift_days : Z) (bucket_interval : option string)
    (randomize_time_flag : bool) : M Z :=
  try_except
    (open_read input_file ;;;
     open_write output_file ;;;
     lines <- read_lines input_file ;;
     for_each lines
       (process_line output_file column_index date_format shift_days
                     bucket_interval randomize_time_flag) ;;;
     ret 0)
    is_Exception
    (fun e =>
       match e with
       | FileNotFoundError => logging ERROR (InputFileNotFound input_file) ;;; ret 1
       | _ => logging ERROR (UnexpectedError e) ;;; ret 1
       end).

(** The namespace [parse_args] returns. *)
Record args : Type := mkargs {
  args_shift_days : Z;
  args_bucket_interval : option string;
  args_input_file : option string;
  args_output_file : option string;
  args_date_format : format;
  args_column_index : Z;
  args_randomize_time : bool
}.

(** [parser.error(msg)] prints the usage with the message and leaves
    the process with status 2. *)
Definition parser_error (msg : string) : M unit :=
  emit (PrintUsage msg) ;;; raise (SystemExit 2).

Definition sys_exit (status : Z) : M unit := raise (SystemExit status).

(** The help texts [setup_argparse] gives to [add_argument]. *)
Definition help_texts : list string :=
  ["Shift dates by a random number of days (positive or negative).";
   "Bucket dates into broader time intervals (day, week, month).";
   "Path to the input file containing time-related data.";
   "Path to the output file to write the masked data.";
   "Format of the date in the input file (default: %Y-%m-%d).";
   "Index of the column containing the date (default: 0).";
   "Randomize the time portion of a datetime object."].

(** The characters that may follow a percent sign in a text expanded
    with the [%] operator: a key in parentheses, a flag, a width, a
    precision, a length or a conversion. *)
Definition conversion_start (c : ascii) : bool :=
  existsb (Ascii.eqb c)
          (list_ascii_of_string "(#0- +123456789*.hlLdiouxXeEfFgGcrsa%").

(** Whether the [%] operator accepts a text: a percent sign followed by
    another character, or by nothing, is a [ValueError]. *)
Fixpoint expands (s : string) : bool :=
  match s with
  | EmptyString => true
  | String c s' =>
      if Ascii.eqb c "%" then
        match s' with
        | EmptyString => false
        | String c' s'' => conversion_start c' && expands s''
        end
      else expands s'
  end.

(** [parser.print_help()]: argparse expands every help text with the
    [%] operator before it prints anything. *)
Definition print_help : M unit :=
  if forallb expands help_texts then emit PrintHelp else raise ValueError.

Definition when (b : bool) (m : M unit) : M unit := if b then m else ret tt.

Definition main (a : args) : M unit :=
  when (negb ((0 <? args_shift_days a) || truthy (args_bucket_interval a) || args_randomize_time a))
    (parser_error "At least one of --shift_days, --bucket_interval, or --randomize_time must be specified." ;;;
     sys_exit 1) ;;;
  when ((0 <? args_shift_days a) && truthy (args_bucket_interval a))
    (parser_error "--shift_days and --bucket_interval are mutually exclusive. Choose only one." ;;;
     sys_exit 1) ;;;
  if truthy (args_input_file a) && truthy (args_output_file a) then
    result <- process_data (default EmptyString (args_input_file a))
                           (default EmptyString (args_output_file a))
                           (args_column_index a) (args_date_format a)
                           (args_shift_days a) (args_bucket_interval a)
                           (args_randomize_time a) ;;
    when (negb (result =? 0)) (sys_exit 1) ;;;
    logging INFO MaskingComplete
  else
    print_help ;;; sys_exit 1.

(** The status the process ends with: 0 when [main] returns, the
    argument of [sys.exit], 1 for an exception nobody caught. *)
Definition exit_status (r : result unit) : Z :=
  match r with
  | Ok _ => 0
  | Raise (SystemExit status) => status
  | Raise _ => 1
  end.

Definition run (a : args) (st : state) : Z * state :=
  let '(r, st') := main a st in (exit_status r, st').

(** ** Notions the statements below are written with *)

(** The pattern ["%Y-%m-%d"], the default of [--date_format]. *)
Definition iso_date : format :=
  [Dir dir_Y; Lit "-"; Dir dir_m; Lit "-"; Dir dir_d].

(** The pattern ["%Y-%m-%d %H:%M:%S"]. *)
Definition iso_datetime : format :=
  [Dir dir_Y; Lit "-"; Dir dir_m; Lit "-"; Dir dir_d; Lit " ";
   Dir dir_H; Lit ":"; Dir dir_M; Lit ":"; Dir dir_S].

(** A state with no file, an empty log and a generator that draws 0. *)
Definition idle : state := mkstate (fun _ => 0) [] ∅ ∅ [].

(** A state whose next raw draws are the given ones. *)
Definition with_draws (raw : list Z) (st : state) : state :=
  mkstate (fun n => nth n raw (draws st (n - length raw)%nat))
          (log st) (files st) (read_only st) (trace st).

(** Whether a format holds a directive. *)
Definition has (f : format) (d : directive) : bool :=
  existsb (directive_eqb d) (directives f).

(** The value [strptime] gives a field the format does not mention. *)
Definition default_of (d : directive) : Z :=
  match d with dir_Y => 1900 | dir_m | dir_d => 1 | _ => 0 end.

(** The values a field of a valid [datetime] can take. *)
Definition field_min (d : directive) : Z :=
  match d with dir_Y | dir_m | dir_d => 1 | _ => 0 end.
Definition field_max (d : directive) : Z :=
  match d with
  | dir_Y => 9999 | dir_m => 12 | dir_d => 31
  | dir_H => 23 | dir_M => 59 | dir_S => 59
  end.

Fixpoint string_forall (P : ascii -> bool) (s : string) : bool :=
  match s with
  | EmptyString => true
  | String c s' => P c && string_forall P s'
  end.

Definition starts_space (s : string) : bool :=
  match s with
  | String c _ => is_space c
  | EmptyString => false
  end.

Fixpoint ends_space (s : string) : bool :=
  match s with
  | EmptyString => false
  | String c s' => if is_empty s' then is_space c else ends_space s'
  end.

Definition no_comma (s : string) : bool :=
  string_forall (fun c => negb (Ascii.eqb c ",")) s.

Definition plain_char (c : ascii) : bool :=
  negb (is_space c) && negb (Ascii.eqb c ",").

(** The first alternative that matches a token, whatever follows. *)
Fixpoint first_hit (alts : list (list cls)) (tok : string) : option (string * string) :=
  match alts with
  | [] => None
  | a :: alts' =>
      match match_alt a tok with
      | Some r => Some r
      | None => first_hit alts' tok
      end
  end.

(** The least value of a field whose text [strptime] reads back: a
    year needs its four digits. *)
Definition read_min (d : directive) : Z :=
  match d with dir_Y => 1000 | _ => field_min d end.

(** What is checked by computation for each value of each field: the
    text [show d v] is not empty and consists of characters that are
    neither whitespace nor a comma. *)
Definition show_ok (d : directive) (v : Z) : bool :=
  (v <? field_min d) ||
  (string_forall plain_char (show d v) && negb (is_empty (show d v))).

(** And for each value from [read_min] on: the text [show d v] is
    matched whole by the first alternative that matches at all, and
    reads back as [v]. *)
Definition reads_ok (d : directive) (v : Z) : bool :=
  (v <? read_min d) ||
  (forallb (fun a => (length a <=? String.length (show d v))%nat) (alternatives d) &&
   match first_hit (alternatives d) (show d v) with
   | Some (t, r) => String.eqb t (show d v) && is_empty r
   | None => false
   end &&
   (int (show d v) =? v)).

(** What is checked by computation for each day of a year. *)
Definition month_and_day_ok (leapyear : bool) (n : Z) : bool :=
  let '(m, d) := month_and_day leapyear n in
  (1 <=? m) && (m <=? 12) && (1 <=? d) &&
  (d <=? DAYS_IN_MONTH m + Z_of_bool ((m =? 2) && leapyear)) &&
  (DAYS_BEFORE_MONTH m + Z_of_bool ((2 <? m) && leapyear) + d =? n + 1).

(** The groups of a compiled pattern. *)
Fixpoint groups (p : list re_item) : list directive :=
  match p with
  | [] => []
  | RGroup d :: p' => d :: groups p'
  | _ :: p' => groups p'
  end.

(** The groups [strptime] finds in the text [strftime] writes. *)
Definition captures (dt : datetime) (f : format) : list (directive * Z) :=
  map (fun d => (d, field d dt)) (directives f).

Definition starts_RSpaces (p : list re_item) : bool :=
  match p with RSpaces :: _ => true | _ => false end.

Fixpoint ends_ws (f : format) : bool :=
  match f with
  | [] => false
  | it :: f' =>
      match f' with
      | [] => match it with Lit c => is_space c | Dir _ => false end
      | _ => ends_ws f'
      end
  end.

Fixpoint ends_RSpaces (p : list re_item) : bool :=
  match p with
  | [] => false
  | it :: p' =>
      match p' with
      | [] => match it with RSpaces => true | _ => false end
      | _ => ends_RSpaces p'
      end
  end.

(** How a masked value comes about: it is the field itself (no
    strategy configured), or a valid date written with the format the
    field was parsed with. *)
Definition masked_from (date_str : string) (date_format : format) (masked : string) : Prop :=
  masked = date_str \/
  exists dt dt', strptime date_str date_format = Ok dt /\ valid dt' = true /\
                 masked = strftime dt' date_format.

(** The message of the check on conflicting options in [main]. *)
Definition mutually_exclusive_msg : string :=
  "--shift_days and --bucket_interval are mutually exclusive. Choose only one.".

(** The namespace of
    [--shift_days 5 --bucket_interval week --input_file in.csv --output_file out.csv]. *)
Definition conflicting : args :=
  mkargs 5 (Some "week") (Some "in.csv") (Some "out.csv") iso_date 0 false.

(** A state with one input file. *)
Definition one_file : state := set_files {["in.csv" := "2023-01-15"]} idle.

(** A record with whitespace around its first and last field. *)
Definition padded_record : string := " a,2023-01-15, b ".

(** The first data line of the example input of [main.py]. *)
Definition sample_line : string :=
  String.append "1,2023-01-15,2023-01-15 10:30:00" newline.


(** The message of the check that some strategy is selected in [main]. *)
Definition at_least_one_msg : string :=
  "At least one of --shift_days, --bucket_interval, or --randomize_time must be specified.".

(** The namespace [parse_args] returns when no option is given: the
    defaults of [setup_argparse]. *)
Definition default_args : args := mkargs 0 None None None iso_date 0 false.

(** The log record a masking function writes for an exception: the
    [except ValueError] clause comes first. *)
Definition failure_message (date_str : string) (e : exn) : message :=
  match e with
  | ValueError => ErrorParsingDate date_str e
  | _ => UnexpectedError e
  end.

(** Text of ASCII characters only: its bytes are its characters in
    every encoding a locale uses, so reading it in text mode cannot
    fail to decode. *)
Definition ascii_text (s : string) : bool :=
  string_forall (fun c => code c <? 128) s.

(** A non-blank line with too few fields for a negative column index:
    indexing it raises [IndexError]. *)
Definition index_error (column_index : Z) (line : string) : bool :=
  negb (is_empty (strip line)) &&
  (column_index <? - Z.of_nat (length (split "," (strip line)))).

(** A state whose only file, [in.csv], holds the given text. *)
Definition with_input (text : string) : state := set_files {["in.csv" := text]} idle.

(** The namespace of
    [--bucket_interval month --input_file in.csv --output_file out.csv --column_index 1]. *)
Definition bucket_by_month : args :=
  mkargs 0 (Some "month") (Some "in.csv") (Some "out.csv") iso_date 1 false.

(** * Facts about the calendar *)

Ltac divmod := Z.to_euclidean_division_equations; lia.

Section CalendarFacts.

Lemma Z_of_bool_range b : 0 <= Z_of_bool b <= 1.
Proof. destruct b; simpl; lia. Qed.

(** A check over an initial segment of the naturals, done by
    computation, gives the property for every integer of the segment. *)
Lemma check_below (P : Z -> bool) (bound : Z) :
  forallb (fun i => P (Z.of_nat i)) (seq 0 (Z.to_nat bound)) = true ->
  forall n, 0 <= n < bound -> P n = true.
Proof.
  intros Hall n Hn.
  rewrite forallb_forall in Hall.
  specialize (Hall (Z.to_nat n)).
  rewrite Z2Nat.id in Hall by lia.
  apply Hall, in_seq. lia.
Qed.

Lemma month_and_day_spec leapyear n :
  0 <= n < 365 + Z_of_bool leapyear ->
  month_and_day_ok leapyear n = true.
Proof.
  intros Hn.
  destruct leapyear; simpl in Hn.
  - apply (check_below (month_and_day_ok true) 366); [vm_compute; reflexivity | lia].
  - apply (check_below (month_and_day_ok false) 365); [vm_compute; reflexivity | lia].
Qed.

(** The leap years of a 400-year cycle, as [_ord2ymd] finds them. *)
Lemma is_leap_cycle n400 n100 n4 n1 :
  0 <= n100 <= 3 -> 0 <= n4 <= 24 -> 0 <= n1 <= 3 ->
  is_leap (n400 * 400 + 1 + (n100 * 100 + n4 * 4 + n1)) =
  (n1 =? 3) && (negb (n4 =? 24) || (n100 =? 3)).
Proof.
  intros H100 H4 H1. unfold is_leap.
  repeat match goal with
         | |- context [?a =? ?b] => destruct (Z.eqb_spec a b)
         end; simpl; try reflexivity; exfalso; divmod.
Qed.

Lemma days_before_year_cycle n400 n100 n4 n1 :
  0 <= n100 <= 3 -> 0 <= n4 <= 24 -> 0 <= n1 <= 3 ->
  days_before_year (n400 * 400 + 1 + (n100 * 100 + n4 * 4 + n1)) =
  n400 * DI400Y + n100 * DI100Y + n4 * DI4Y + n1 * 365.
Proof.
  intros H100 H4 H1. unfold days_before_year, DI400Y, DI100Y, DI4Y. divmod.
Qed.

Lemma days_before_year_succ y :
  days_before_year (y + 1) = days_before_year y + 365 + Z_of_bool (is_leap y).
Proof.
  unfold days_before_year, is_leap.
  repeat match goal with
         | |- context [?a =? ?b] => destruct (Z.eqb_spec a b)
         end; simpl; divmod.
Qed.

Lemma days_before_year_nonneg y : 1 <= y -> 0 <= days_before_year y.
Proof. intros Hy. unfold days_before_year. divmod. Qed.

Lemma days_before_year_max y : y <= 10000 -> days_before_year y <= MAXORDINAL.
Proof. intros Hy. unfold days_before_year, MAXORDINAL. divmod. Qed.

Lemma days_in_month_eq y m :
  days_in_month y m = DAYS_IN_MONTH m + Z_of_bool ((m =? 2) && is_leap y).
Proof.
  unfold days_in_month.
  destruct (Z.eqb_spec m 2) as [->|]; simpl; [destruct (is_leap y); reflexivity | lia].
Qed.

(** A valid day of a year lies within the year. *)
Lemma day_of_year_range y m d :
  1 <= m <= 12 -> 1 <= d <= days_in_month y m ->
  1 <= days_before_month y m + d <= 365 + Z_of_bool (is_leap y).
Proof.
  intros Hm Hd. rewrite days_in_month_eq in Hd. unfold days_before_month.
  assert (m = 1 \/ m = 2 \/ m = 3 \/ m = 4 \/ m = 5 \/ m = 6 \/ m = 7 \/
          m = 8 \/ m = 9 \/ m = 10 \/ m = 11 \/ m = 12) as Hcases by lia.
  destruct (is_leap y);
    repeat (destruct Hcases as [-> | Hcases]); try subst m; simpl in *; lia.
Qed.

Lemma valid_date_spec y m d :
  valid_date y m d = true <->
  1 <= y <= 9999 /\ 1 <= m <= 12 /\ 1 <= d <= days_in_month y m.
Proof. unfold valid_date, MINYEAR, MAXYEAR. rewrite !andb_true_iff, !Z.leb_le. lia. Qed.

Lemma ymd2ord_range y m d :
  valid_date y m d = true -> 1 <= ymd2ord y m d <= MAXORDINAL.
Proof.
  rewrite valid_date_spec. intros (Hy & Hm & Hd).
  pose proof (day_of_year_range y m d Hm Hd) as Hdoy.
  pose proof (days_before_year_nonneg y ltac:(lia)).
  pose proof (days_before_year_max (y + 1) ltac:(lia)) as Hmax.
  rewrite days_before_year_succ in Hmax.
  unfold ymd2ord. lia.
Qed.

(** [_ord2ymd] returns a date of the calendar, and [_ymd2ord] takes it
    back to the ordinal. *)
Lemma ord2ymd_spec n :
  1 <= n <= MAXORDINAL ->
  let '(y, m, d) := ord2ymd n in
  valid_date y m d = true /\ ymd2ord y m d = n.
Proof.
  unfold MAXORDINAL. intros Hn. unfold ord2ymd.
  set (N := n - 1).
  set (n400 := N / DI400Y). set (r400 := N mod DI400Y).
  set (n100 := r400 / DI100Y). set (r100 := r400 mod DI100Y).
  set (n4 := r100 / DI4Y). set (r4 := r100 mod DI4Y).
  set (n1 := r4 / 365). set (r1 := r4 mod 365).
  assert (N = n400 * DI400Y + r400 /\ 0 <= r400 < DI400Y) as [E400 B400]
    by (subst n400 r400; unfold DI400Y; divmod).
  assert (r400 = n100 * DI100Y + r100 /\ 0 <= r100 < DI100Y) as [E100 B100]
    by (subst n100 r100; unfold DI100Y; divmod).
  assert (r100 = n4 * DI4Y + r4 /\ 0 <= r4 < DI4Y) as [E4 B4]
    by (subst n4 r4; unfold DI4Y; divmod).
  assert (r4 = n1 * 365 + r1 /\ 0 <= r1 < 365) as [E1 B1]
    by (subst n1 r1; divmod).
  clearbody n400 r400 n100 r100 n4 r4 n1 r1.
  unfold DI400Y, DI100Y, DI4Y in *.
  assert (0 <= n400 <= 24) by lia.
  assert (0 <= n100 <= 4) by lia.
  assert (0 <= n4 <= 24) by lia.
  assert (0 <= n1 <= 4) by lia.
  destruct ((n1 =? 4) || (n100 =? 4)) eqn:Hend.
  - (* the last day of a leap year *)
    assert (exists n100' n4', 0 <= n100' <= 3 /\ 0 <= n4' <= 24 /\
              n400 * 400 + 1 + (n100 * 100 + n4 * 4 + n1) - 1 =
              n400 * 400 + 1 + (n100' * 100 + n4' * 4 + 3) /\
              n400 * 146097 + n100' * 36524 + n4' * 1461 + 3 * 365 + 366 = n)
      as (n100' & n4' & H100' & H4' & Ey & En).
    { apply orb_true_iff in Hend as [He%Z.eqb_eq | He%Z.eqb_eq].
      - exists n100, n4. lia.
      - exists 3, 24. lia. }
    rewrite Ey.
    pose proof (is_leap_cycle n400 n100' n4' 3 H100' H4' ltac:(lia)) as Hleap.
    pose proof (days_before_year_cycle n400 n100' n4' 3 H100' H4' ltac:(lia)) as Hdby.
    unfold DI400Y, DI100Y, DI4Y in Hdby.
    assert ((3 =? 3) && (negb (n4' =? 24) || (n100' =? 3)) = true) as Htrue.
    { simpl. destruct (Z.eqb_spec n4' 24), (Z.eqb_spec n100' 3); simpl; try reflexivity.
      exfalso. subst n4'. apply orb_true_iff in Hend as [He%Z.eqb_eq | He%Z.eqb_eq]; lia. }
    rewrite Htrue in Hleap.
    split.
    + apply valid_date_spec. unfold days_in_month. simpl. lia.
    + unfold ymd2ord, days_before_month. rewrite Hleap, Hdby. simpl. lia.
  - apply orb_false_iff in Hend as [Hn1%Z.eqb_neq Hn100%Z.eqb_neq].
    pose proof (is_leap_cycle n400 n100 n4 n1 ltac:(lia) ltac:(lia) ltac:(lia)) as Hleap.
    pose proof (days_before_year_cycle n400 n100 n4 n1 ltac:(lia) ltac:(lia) ltac:(lia)) as Hdby.
    unfold DI400Y, DI100Y, DI4Y in Hdby.
    set (leapyear := (n1 =? 3) && (negb (n4 =? 24) || (n100 =? 3))) in *.
    assert (0 <= r1 < 365 + Z_of_bool leapyear) as Hr1
      by (pose proof (Z_of_bool_range leapyear); lia).
    pose proof (month_and_day_spec leapyear r1 Hr1) as Hmd.
    unfold month_and_day_ok in Hmd.
    destruct (month_and_day leapyear r1) as [m d].
    rewrite !andb_true_iff, !Z.leb_le, Z.eqb_eq in Hmd.
    destruct Hmd as ((((Hm1 & Hm2) & Hd1) & Hd2) & Hsum).
    split.
    + apply valid_date_spec. rewrite days_in_month_eq, Hleap.
      assert (n400 = 24 -> n100 * 100 + n4 * 4 + n1 <= 398) by lia.
      lia.
    + unfold ymd2ord, days_before_month. rewrite Hleap, Hdby. lia.
Qed.

Lemma valid_spec dt :
  valid dt = true <->
  valid_date (year dt) (month dt) (day dt) = true /\
  (0 <= hour dt <= 23 /\ 0 <= minute dt <= 59 /\ 0 <= second dt <= 59).
Proof. unfold valid, valid_time. rewrite !andb_true_iff, !Z.leb_le. tauto. Qed.

Lemma make_Some y m d H M S dt :
  make y m d H M S = Some dt -> dt = mkdt y m d H M S /\ valid dt = true.
Proof.
  unfold make. destruct (valid_date y m d && valid_time H M S) eqn:Hv; [|discriminate].
  intros [= <-]. split; [reflexivity | exact Hv].
Qed.

Lemma toordinal_range dt : valid dt = true -> 1 <= toordinal dt <= MAXORDINAL.
Proof. intros [Hd _]%valid_spec. apply ymd2ord_range, Hd. Qed.

(** Adding days fails exactly when the ordinal leaves the calendar. *)
Lemma add_days_None dt k :
  add_days dt k = None <-> ~ (1 <= toordinal dt + k <= MAXORDINAL).
Proof.
  unfold add_days.
  destruct ((0 <? toordinal dt + k) && (toordinal dt + k <=? MAXORDINAL)) eqn:Hr.
  - apply andb_true_iff in Hr as [H1%Z.ltb_lt H2%Z.leb_le].
    destruct (ord2ymd (toordinal dt + k)) as [[y m] d]. split; [discriminate | lia].
  - apply andb_false_iff in Hr as [H1%Z.ltb_ge | H2%Z.leb_gt]; split; auto; lia.
Qed.

(** Adding days moves the ordinal by that many days and keeps the
    time of day. *)
Lemma add_days_Some dt k dt' :
  valid dt = true -> add_days dt k = Some dt' ->
  valid dt' = true /\ toordinal dt' = toordinal dt + k /\
  hour dt' = hour dt /\ minute dt' = minute dt /\ second dt' = second dt.
Proof.
  intros Hv Hadd. apply valid_spec in Hv as (Hd & Hh & Hm & Hs).
  unfold add_days in Hadd.
  destruct ((0 <? toordinal dt + k) && (toordinal dt + k <=? MAXORDINAL)) eqn:Hr;
    [|discriminate].
  apply andb_true_iff in Hr as [H1%Z.ltb_lt H2%Z.leb_le].
  pose proof (ord2ymd_spec (toordinal dt + k) ltac:(lia)) as Hord.
  destruct (ord2ymd (toordinal dt + k)) as [[y m] d]. destruct Hord as [Hvd Hyo].
  injection Hadd as <-.
  assert ((hour dt * 3600 + minute dt * 60 + second dt) / 3600 = hour dt) as EH by divmod.
  assert ((hour dt * 3600 + minute dt * 60 + second dt) mod 3600 / 60 = minute dt) as EM
    by divmod.
  assert ((hour dt * 3600 + minute dt * 60 + second dt) mod 3600 mod 60 = second dt) as ES
    by divmod.
  rewrite valid_spec. unfold toordinal at 1. simpl. rewrite EH, EM, ES. tauto.
Qed.

Lemma add_days_is_Some dt k :
  1 <= toordinal dt + k <= MAXORDINAL -> exists dt', add_days dt k = Some dt'.
Proof.
  intros Hr. destruct (add_days dt k) as [dt'|] eqn:E; [eauto|].
  apply add_days_None in E. contradiction.
Qed.

(** The Monday of the week of a date always exists. *)
Lemma start_of_week_spec dt :
  valid dt = true ->
  exists monday,
    add_days dt (- weekday dt) = Some monday /\ valid monday = true /\
    weekday monday = 0 /\
    toordinal dt - 6 <= toordinal monday <= toordinal dt /\
    hour monday = hour dt /\ minute monday = minute dt /\ second monday = second dt.
Proof.
  intros Hv. pose proof (toordinal_range dt Hv) as Hr.
  assert (0 <= weekday dt <= 6 /\ 1 <= toordinal dt - weekday dt) as [Hw Hlow]
    by (unfold weekday; divmod).
  destruct (add_days_is_Some dt (- weekday dt) ltac:(lia)) as [monday Hadd].
  exists monday. split; [exact Hadd|].
  destruct (add_days_Some dt _ monday Hv Hadd) as (Hv' & Hord & Htime).
  repeat split; try tauto; try lia.
  unfold weekday at 1. rewrite Hord. unfold weekday. divmod.
Qed.

Lemma replace_day_first dt :
  valid dt = true ->
  replace_day dt 1 = Some (mkdt (year dt) (month dt) 1 (hour dt) (minute dt) (second dt)).
Proof.
  intros Hv. unfold replace_day, make.
  apply andb_true_iff in Hv as [Hd Ht]. rewrite Ht.
  apply valid_date_spec in Hd as (Hy & Hm & Hd).
  assert (valid_date (year dt) (month dt) 1 = true) as ->; [|reflexivity].
  apply valid_date_spec. lia.
Qed.

End CalendarFacts.


(** * Facts about the codec *)

Section CodecFacts.

Lemma append_nil (b : string) : String.append EmptyString b = b.
Proof. reflexivity. Qed.

Lemma append_cons c (a b : string) :
  String.append (String c a) b = String c (String.append a b).
Proof. reflexivity. Qed.

Lemma append_assoc (a b c : string) :
  String.append (String.append a b) c = String.append a (String.append b c).
Proof.
  induction a as [|x a IH]; [reflexivity|].
  rewrite !append_cons, IH. reflexivity.
Qed.

Lemma append_empty_r (a : string) : String.append a EmptyString = a.
Proof.
  induction a as [|x a IH]; [reflexivity|].
  rewrite append_cons, IH. reflexivity.
Qed.

Lemma is_empty_true s : is_empty s = true <-> s = EmptyString.
Proof. destruct s; simpl; split; congruence. Qed.

(** An alternative no longer than a token reads nothing beyond it. *)
Lemma match_alt_append a : forall tok rest,
  (length a <= String.length tok)%nat ->
  match_alt a (String.append tok rest) =
  match match_alt a tok with
  | Some (t, r) => Some (t, String.append r rest)
  | None => None
  end.
Proof.
  induction a as [|k a IH]; intros tok rest Hlen; simpl; [reflexivity|].
  destruct tok as [|c tok]; simpl in *; [lia|].
  rewrite ?append_cons; simpl.
  destruct (in_cls k c); [|reflexivity].
  rewrite IH by lia. destruct (match_alt a tok) as [[t r]|]; reflexivity.
Qed.

Lemma first_alt_hit {R} alts tok rest (k : string -> string -> option R) r :
  forallb (fun a => (length a <=? String.length tok)%nat) alts = true ->
  first_hit alts tok = Some (tok, EmptyString) ->
  k tok rest = Some r ->
  first_alt alts (String.append tok rest) k = Some r.
Proof.
  intros Hlen Hhit Hk. induction alts as [|a alts IH]; simpl in *; [discriminate|].
  apply andb_true_iff in Hlen as [Ha Hlen]. apply Nat.leb_le in Ha.
  rewrite match_alt_append by exact Ha.
  destruct (match_alt a tok) as [[t r']|].
  - injection Hhit as -> ->. rewrite append_nil, Hk. reflexivity.
  - apply IH; assumption.
Qed.

Lemma field_range d dt :
  valid dt = true -> field_min d <= field d dt <= field_max d.
Proof.
  intros (Hd & Ht)%valid_spec. apply valid_date_spec in Hd as (Hy & Hm & Hd).
  assert (days_in_month (year dt) (month dt) <= 31).
  { rewrite days_in_month_eq.
    pose proof (Z_of_bool_range ((month dt =? 2) && is_leap (year dt))).
    destruct (Z.eqb_spec (month dt) 2) as [->|]; simpl in *; [lia|].
    assert (month dt = 1 \/ month dt = 3 \/ month dt = 4 \/ month dt = 5 \/
            month dt = 6 \/ month dt = 7 \/ month dt = 8 \/ month dt = 9 \/
            month dt = 10 \/ month dt = 11 \/ month dt = 12) as Hc by lia.
    repeat (destruct Hc as [-> | Hc]); try rewrite Hc; simpl; lia. }
  destruct d; simpl; lia.
Qed.

Lemma show_ok_all d v : field_min d <= v <= field_max d -> show_ok d v = true.
Proof.
  intros Hv.
  destruct d; simpl in Hv.
  - apply (check_below (show_ok dir_Y) 10000); [vm_compute; reflexivity | lia].
  - apply (check_below (show_ok dir_m) 13); [vm_compute; reflexivity | lia].
  - apply (check_below (show_ok dir_d) 32); [vm_compute; reflexivity | lia].
  - apply (check_below (show_ok dir_H) 24); [vm_compute; reflexivity | lia].
  - apply (check_below (show_ok dir_M) 60); [vm_compute; reflexivity | lia].
  - apply (check_below (show_ok dir_S) 60); [vm_compute; reflexivity | lia].
Qed.

Lemma show_plain d v :
  field_min d <= v <= field_max d ->
  string_forall plain_char (show d v) = true /\ show d v <> EmptyString.
Proof.
  intros Hv. pose proof (show_ok_all d v Hv) as Hok. unfold show_ok in Hok.
  destruct (Z.ltb_spec v (field_min d)); [lia|]. simpl in Hok.
  apply andb_true_iff in Hok as [Hplain Hne]. split; [exact Hplain|].
  intros E. rewrite E in Hne. discriminate.
Qed.

Lemma reads_ok_all d v : read_min d <= v <= field_max d -> reads_ok d v = true.
Proof.
  intros Hv.
  destruct d; simpl in Hv.
  - apply (check_below (reads_ok dir_Y) 10000); [vm_compute; reflexivity | lia].
  - apply (check_below (reads_ok dir_m) 13); [vm_compute; reflexivity | lia].
  - apply (check_below (reads_ok dir_d) 32); [vm_compute; reflexivity | lia].
  - apply (check_below (reads_ok dir_H) 24); [vm_compute; reflexivity | lia].
  - apply (check_below (reads_ok dir_M) 60); [vm_compute; reflexivity | lia].
  - apply (check_below (reads_ok dir_S) 60); [vm_compute; reflexivity | lia].
Qed.

Lemma show_spec d v :
  read_min d <= v <= field_max d ->
  forallb (fun a => (length a <=? String.length (show d v))%nat) (alternatives d) = true /\
  first_hit (alternatives d) (show d v) = Some (show d v, EmptyString) /\
  int (show d v) = v.
Proof.
  intros Hv. pose proof (reads_ok_all d v Hv) as Hok. unfold reads_ok in Hok.
  destruct (Z.ltb_spec v (read_min d)); [lia|]. simpl in Hok.
  rewrite !andb_true_iff in Hok. destruct Hok as ((H1 & H2) & H3).
  destruct (first_hit (alternatives d) (show d v)) as [[t r]|]; [|discriminate].
  apply andb_true_iff in H2 as [Ht Hr]. apply String.eqb_eq in Ht.
  apply is_empty_true in Hr. subst.
  repeat split; auto. apply Z.eqb_eq, H3.
Qed.

(** A valid [datetime] from the year 1000 on has fields that read
    back. *)
Lemma field_reads d dt :
  valid dt = true -> 1000 <= year dt -> read_min d <= field d dt <= field_max d.
Proof.
  intros Hv Hy. pose proof (field_range d dt Hv) as Hr. destruct d; simpl in *; lia.
Qed.

Lemma groups_compile f : groups (compile f) = directives f.
Proof.
  induction f as [|[c|d] f IH]; simpl; [reflexivity | | rewrite IH; reflexivity].
  destruct (is_space c); simpl; [|exact IH].
  rewrite <- IH. destruct (compile f) as [|[]]; reflexivity.
Qed.

Lemma first_alt_inv {R} alts s (k : string -> string -> option R) r :
  first_alt alts s k = Some r -> exists tok rest, k tok rest = Some r.
Proof.
  induction alts as [|a alts IH]; simpl; [discriminate|].
  destruct (match_alt a s) as [[tok rest]|]; [|exact IH].
  destruct (k tok rest) eqn:Hk; [|exact IH].
  intros [= <-]. eauto.
Qed.

Lemma spaces_inv {R} (k : string -> option R) s r :
  spaces k s = Some r -> exists s', k s' = Some r.
Proof.
  induction s as [|c s IH]; simpl; [eauto|].
  destruct (is_space c); [|eauto].
  destruct (spaces k s) eqn:Hs; [|eauto].
  intros [= <-]. apply IH. reflexivity.
Qed.

Lemma rmatch_groups p : forall s found rest,
  rmatch p s = Some (found, rest) -> map fst found = groups p.
Proof.
  induction p as [|[c| |d] p IH]; intros s found rest; simpl.
  - intros [= <- _]. reflexivity.
  - destruct s as [|c' s]; [discriminate|].
    destruct (same_letter c c'); [apply IH | discriminate].
  - destruct s as [|c' s]; [discriminate|].
    destruct (is_space c'); [|discriminate].
    intros (s' & Hs')%spaces_inv. eapply IH, Hs'.
  - intros (tok & rest' & Hk)%first_alt_inv.
    destruct (rmatch p rest') as [[found' r']|] eqn:Hr; [|discriminate].
    injection Hk as <- <-. simpl. f_equal. eapply IH, Hr.
Qed.

Lemma spaces_skip {R} (k : string -> option R) s :
  starts_space s = false -> spaces k s = k s.
Proof. destruct s as [|c s]; simpl; [reflexivity|]. intros ->. reflexivity. Qed.

Lemma string_forall_append P a b :
  string_forall P (String.append a b) = string_forall P a && string_forall P b.
Proof.
  induction a as [|c a IH]; [reflexivity|].
  rewrite append_cons. simpl. rewrite IH, andb_assoc. reflexivity.
Qed.

Lemma show_starts_plain d v rest :
  field_min d <= v <= field_max d ->
  starts_space (String.append (show d v) rest) = false.
Proof.
  intros Hv. destruct (show_plain d v Hv) as (Hplain & Hne).
  destruct (show d v) as [|c s]; [congruence|].
  rewrite append_cons. simpl in *.
  apply andb_true_iff in Hplain as [Hc _]. unfold plain_char in Hc.
  apply andb_true_iff in Hc as [Hc _]. apply negb_true_iff, Hc.
Qed.

Lemma strftime_starts dt f :
  valid dt = true -> starts_RSpaces (compile f) = false ->
  starts_space (strftime dt f) = false.
Proof.
  intros Hv. destruct f as [|[c|d] f]; simpl; [reflexivity | |].
  - destruct (is_space c) eqn:Hc; [|reflexivity].
    destruct (compile f) as [|[]]; discriminate.
  - intros _. apply show_starts_plain, field_range, Hv.
Qed.

Lemma rmatch_strftime dt f :
  valid dt = true -> 1000 <= year dt ->
  rmatch (compile f) (strftime dt f) = Some (captures dt f, EmptyString) /\
  (forall r, compile f = RSpaces :: r ->
             spaces (rmatch r) (strftime dt f) = Some (captures dt f, EmptyString)).
Proof.
  intros Hv Hy. induction f as [|[c|d] f [IHP IHQ]].
  - split; [reflexivity | discriminate].
  - assert (is_space c = true ->
            forall r, compile (Lit c :: f) = RSpaces :: r ->
                      spaces (rmatch r) (strftime dt f) = Some (captures dt f, EmptyString))
      as Hrun.
    { intros Hc r. simpl. rewrite Hc.
      destruct (starts_RSpaces (compile f)) eqn:Hhead.
      - destruct (compile f) as [|[] p] eqn:Hp; try discriminate.
        intros [= <-]. apply IHQ. reflexivity.
      - intros Hr. assert (r = compile f) as ->.
        { destruct (compile f) as [|[] p]; try discriminate; congruence. }
        rewrite spaces_skip by (apply strftime_starts; assumption). exact IHP. }
    destruct (is_space c) eqn:Hc.
    + specialize (Hrun eq_refl). split.
      * assert (exists r, compile (Lit c :: f) = RSpaces :: r) as [r Hr].
        { simpl. rewrite Hc. destruct (compile f) as [|[]]; eauto. }
        rewrite Hr. simpl. rewrite Hc. apply (Hrun r Hr).
      * intros r Hr. simpl strftime. simpl spaces. rewrite Hc.
        rewrite (Hrun r Hr). reflexivity.
    + split.
      * simpl. rewrite Hc. simpl. unfold same_letter. rewrite Ascii.eqb_refl. exact IHP.
      * simpl. rewrite Hc. discriminate.
  - split; [|discriminate].
    pose proof (field_reads d dt Hv Hy) as Hr.
    destruct (show_spec d (field d dt) Hr) as (Hlen & Hhit & Hint).
    simpl. apply first_alt_hit; [assumption | assumption |].
    rewrite IHP, Hint. reflexivity.
Qed.

End CodecFacts.


Section RoundTrip.

Lemma directive_eqb_eq a b : directive_eqb a b = true <-> a = b.
Proof. destruct a, b; simpl; split; congruence. Qed.

Lemma found_or_absent d dflt found :
  existsb (directive_eqb d) (map fst found) = false -> found_or d dflt found = dflt.
Proof.
  induction found as [|[d' v] found IH]; simpl; [reflexivity|].
  intros [Hd Hrest]%orb_false_iff. rewrite Hd. apply IH, Hrest.
Qed.

Lemma found_or_captures d dflt dt f :
  found_or d dflt (captures dt f) = if has f d then field d dt else dflt.
Proof.
  unfold captures, has. induction (directives f) as [|d' ds IH]; simpl; [reflexivity|].
  destruct (directive_eqb d d') eqn:E; simpl; [|exact IH].
  apply directive_eqb_eq in E as ->. reflexivity.
Qed.

(** What a successful parse tells about its result. *)
Lemma strptime_Ok s f dt :
  strptime s f = Ok dt ->
  valid dt = true /\ dup_free (directives f) = true /\
  (forall d, has f d = false -> field d dt = default_of d).
Proof.
  unfold strptime. destruct (dup_free (directives f)) eqn:Hdup; simpl; [|discriminate].
  destruct (rmatch (compile f) s) as [[found rest]|] eqn:Hm; [|discriminate].
  destruct (is_empty rest); simpl; [|discriminate].
  destruct (make _ _ _ _ _ _) as [dt'|] eqn:Hmake; [|discriminate].
  intros [= ->]. apply make_Some in Hmake as [-> Hv].
  split; [exact Hv|]. split; [reflexivity|].
  apply rmatch_groups in Hm. rewrite groups_compile in Hm.
  intros d Hd. unfold has in Hd. rewrite <- Hm in Hd.
  destruct d; simpl; apply found_or_absent, Hd.
Qed.

(** Text written by [strftime] parses back to the value it was written
    from, when the year has four digits and the fields the format
    leaves out hold their defaults. *)
Lemma strptime_strftime dt f :
  valid dt = true -> 1000 <= year dt -> dup_free (directives f) = true ->
  (forall d, has f d = false -> field d dt = default_of d) ->
  strptime (strftime dt f) f = Ok dt.
Proof.
  intros Hv Hy Hdup Hdef. unfold strptime. rewrite Hdup. simpl.
  destruct (rmatch_strftime dt f Hv Hy) as [-> _]. simpl.
  assert (forall d, found_or d (default_of d) (captures dt f) = field d dt) as Hf.
  { intros d. rewrite found_or_captures. destruct (has f d) eqn:Hd; [reflexivity|].
    symmetry. apply Hdef, Hd. }
  pose proof (Hf dir_Y) as HY. pose proof (Hf dir_m) as Hm. pose proof (Hf dir_d) as Hd.
  pose proof (Hf dir_H) as HH. pose proof (Hf dir_M) as HM. pose proof (Hf dir_S) as HS.
  cbn [default_of field] in *. rewrite HY, Hm, Hd, HH, HM, HS.
  unfold make. unfold valid in Hv. rewrite Hv. destruct dt; reflexivity.
Qed.

(** The same for a value that differs from a parsed one only in
    fields the format writes. *)
Lemma strptime_strftime_masked s f dt dt' :
  strptime s f = Ok dt -> valid dt' = true -> 1000 <= year dt' ->
  (forall d, has f d = false -> field d dt' = field d dt) ->
  strptime (strftime dt' f) f = Ok dt'.
Proof.
  intros (_ & Hdup & Hdef)%strptime_Ok Hv Hy Hsame.
  apply strptime_strftime; try assumption.
  intros d Hd. rewrite Hsame by exact Hd. apply Hdef, Hd.
Qed.

End RoundTrip.


(** * The masking strategies *)

Section Strategies.

Variables (date_str : string) (date_format : format) (date_object : datetime).
Hypothesis parsed : strptime date_str date_format = Ok date_object.

Lemma date_object_valid : valid date_object = true.
Proof. apply strptime_Ok in parsed. tauto. Qed.

(** [shift_date] draws once and moves the date by the draw. *)
Lemma shift_date_eval shift_days st :
  0 <= shift_days ->
  let random_shift := - shift_days + draws st 0%nat mod (shift_days - - shift_days + 1) in
  shift_date date_str date_format shift_days st =
  match add_days date_object random_shift with
  | Some new_date => (Ok (Some (strftime new_date date_format)), next_draw st)
  | None => (Ok None, add_log ERROR (UnexpectedError OverflowError) (next_draw st))
  end.
Proof.
  intros Hpos. unfold shift_date, except_log, try_except, bind, of_result.
  rewrite parsed. unfold ret, randint.
  destruct (Z.ltb_spec shift_days (- shift_days)); [lia|].
  simpl. destruct (add_days date_object _); reflexivity.
Qed.

Lemma randint_range a b st :
  a <= b -> exists r, randint a b st = (Ok r, next_draw st) /\ a <= r <= b.
Proof.
  intros Hab. unfold randint. destruct (Z.ltb_spec b a); [lia|].
  eexists. split; [reflexivity|].
  pose proof (Z.mod_pos_bound (draws st 0%nat) (b - a + 1) ltac:(lia)). lia.
Qed.

Lemma randint_with_draws a b r raw st :
  a <= r <= b ->
  randint a b (with_draws ((r - a) :: raw) st) = (Ok r, with_draws raw st).
Proof.
  intros Hr. unfold randint. destruct (Z.ltb_spec b a); [lia|].
  f_equal. f_equal. simpl. rewrite Z.mod_small by lia. lia.
Qed.

Lemma bucket_date_day st :
  bucket_date date_str date_format "day" st =
  (Ok (Some (strftime date_object date_format)), st).
Proof.
  unfold bucket_date, except_log, try_except, bind, of_result.
  rewrite parsed. reflexivity.
Qed.

Lemma bucket_date_week st :
  exists start_of_week,
    add_days date_object (- weekday date_object) = Some start_of_week /\
    bucket_date date_str date_format "week" st =
    (Ok (Some (strftime start_of_week date_format)), st).
Proof.
  destruct (start_of_week_spec date_object date_object_valid) as (monday & Hadd & _).
  exists monday. split; [exact Hadd|].
  unfold bucket_date, except_log, try_except, bind, of_result.
  rewrite parsed. unfold ret. simpl. rewrite Hadd. reflexivity.
Qed.

Lemma bucket_date_month st :
  bucket_date date_str date_format "month" st =
  (Ok (Some (strftime (mkdt (year date_object) (month date_object) 1 (hour date_object)
                            (minute date_object) (second date_object)) date_format)), st).
Proof.
  unfold bucket_date, except_log, try_except, bind, of_result.
  rewrite parsed. unfold ret. simpl.
  rewrite (replace_day_first date_object date_object_valid). reflexivity.
Qed.

Lemma randomize_time_eval st :
  let H := draws st 0%nat mod 24 in
  let Mi := draws st 1%nat mod 60 in
  let S := draws st 2%nat mod 60 in
  randomize_time date_str date_format st =
  (Ok (Some (strftime (mkdt (year date_object) (month date_object) (day date_object) H Mi S)
                      date_format)),
   next_draw (next_draw (next_draw st))).
Proof.
  intros H Mi S. unfold randomize_time, except_log, try_except, bind, of_result.
  rewrite parsed. unfold ret, randint. simpl.
  unfold combine_time, valid_time.
  change (23 - 0 + 1) with 24. change (59 - 0 + 1) with 60. rewrite !Z.add_0_l.
  fold H Mi S.
  pose proof (Z.mod_pos_bound (draws st 0%nat) 24 ltac:(lia)).
  pose proof (Z.mod_pos_bound (draws st 1%nat) 60 ltac:(lia)).
  pose proof (Z.mod_pos_bound (draws st 2%nat) 60 ltac:(lia)).
  fold H Mi S in H0, H1, H2.
  repeat match goal with
         | |- context [?a <=? ?b] => destruct (Z.leb_spec a b); [|lia]
         end.
  reflexivity.
Qed.

End Strategies.


(** * Facts about the text operations *)

Section TextFacts.

Lemma lstrip_starts s : starts_space (lstrip s) = false.
Proof.
  induction s as [|c s IH]; simpl; [reflexivity|].
  destruct (is_space c) eqn:Hc; [exact IH | simpl; exact Hc].
Qed.

Lemma lstrip_id s : starts_space s = false -> lstrip s = s.
Proof. destruct s as [|c s]; simpl; [reflexivity|]. intros ->. reflexivity. Qed.

Lemma rstrip_starts s : starts_space s = false -> starts_space (rstrip s) = false.
Proof.
  destruct s as [|c s]; simpl; [reflexivity|]. intros Hc. rewrite Hc. simpl. exact Hc.
Qed.

Lemma rstrip_ends s : ends_space (rstrip s) = false.
Proof.
  induction s as [|c s IH]; simpl; [reflexivity|].
  destruct (is_space c) eqn:Hc; simpl.
  - destruct (is_empty (rstrip s)) eqn:He; simpl; [reflexivity|]. rewrite He. exact IH.
  - destruct (is_empty (rstrip s)) eqn:He; [exact Hc | exact IH].
Qed.

Lemma rstrip_id s : ends_space s = false -> rstrip s = s.
Proof.
  induction s as [|c s IH]; simpl; [reflexivity|].
  destruct (is_empty s) eqn:He.
  - apply is_empty_true in He as ->. simpl. intros ->. reflexivity.
  - intros Hs. rewrite (IH Hs), He, andb_false_r. reflexivity.
Qed.

Lemma strip_starts s : starts_space (strip s) = false.
Proof. apply rstrip_starts, lstrip_starts. Qed.

Lemma strip_ends s : ends_space (strip s) = false.
Proof. apply rstrip_ends. Qed.

Lemma strip_id s : starts_space s = false -> ends_space s = false -> strip s = s.
Proof. intros Hs He. unfold strip. rewrite (lstrip_id s Hs). apply rstrip_id, He. Qed.

Lemma strip_idempotent s : strip (strip s) = strip s.
Proof. apply strip_id; [apply strip_starts | apply strip_ends]. Qed.

Lemma lstrip_no_comma s : no_comma s = true -> no_comma (lstrip s) = true.
Proof.
  induction s as [|c s IH]; simpl; [reflexivity|].
  intros [Hc Hs]%andb_true_iff.
  destruct (is_space c); [apply IH, Hs |].
  apply andb_true_iff. split; assumption.
Qed.

Lemma rstrip_no_comma s : no_comma s = true -> no_comma (rstrip s) = true.
Proof.
  induction s as [|c s IH]; simpl; [reflexivity|].
  intros [Hc Hs]%andb_true_iff.
  destruct (is_space c && is_empty (rstrip s)); [reflexivity|].
  apply andb_true_iff. split; [exact Hc | apply IH, Hs].
Qed.

Lemma strip_no_comma s : no_comma s = true -> no_comma (strip s) = true.
Proof. intros H. apply rstrip_no_comma, lstrip_no_comma, H. Qed.

(** [split] and [join] *)
Lemma split_nonempty s : split "," s <> [].
Proof.
  destruct s as [|c s]; simpl; [discriminate|].
  destruct (Ascii.eqb c ","); [discriminate|].
  destruct (split "," s); discriminate.
Qed.

Lemma split_no_comma s : Forall (fun p => no_comma p = true) (split "," s).
Proof.
  induction s as [|c s IH]; simpl; [repeat constructor|].
  destruct (Ascii.eqb c ",") eqn:Hc; [constructor; [reflexivity | exact IH]|].
  assert (forall p, no_comma p = true -> no_comma (String c p) = true) as Hcons.
  { intros p Hp. apply andb_true_iff. split; [rewrite Hc; reflexivity | exact Hp]. }
  destruct (split "," s) as [|p ps]; [repeat constructor; apply Hcons; reflexivity|].
  inversion IH as [|? ? Hp Hps]; subst. constructor; [apply Hcons, Hp | exact Hps].
Qed.

Lemma join_cons p q ps :
  join "," (p :: q :: ps) = String.append p (String "," (join "," (q :: ps))).
Proof. reflexivity. Qed.

Lemma join_split s : join "," (split "," s) = s.
Proof.
  induction s as [|c s IH]; [reflexivity|]. simpl.
  destruct (Ascii.eqb_spec c ",") as [->|Hc].
  - pose proof (split_nonempty s) as Hne.
    destruct (split "," s) as [|q ps]; [congruence|].
    rewrite join_cons, append_nil, IH. reflexivity.
  - pose proof (split_nonempty s) as Hne.
    destruct (split "," s) as [|p [|q ps]]; [congruence | |].
    + simpl in *. rewrite IH. reflexivity.
    + rewrite join_cons in *. rewrite append_cons, IH. reflexivity.
Qed.

Lemma split_sep s : split "," (String "," s) = EmptyString :: split "," s.
Proof. reflexivity. Qed.

Lemma split_other c s p ps :
  Ascii.eqb c "," = false -> split "," s = p :: ps ->
  split "," (String c s) = String c p :: ps.
Proof. intros Hc Hs. simpl. rewrite Hc, Hs. reflexivity. Qed.

Lemma split_join ps :
  ps <> [] -> Forall (fun p => no_comma p = true) ps -> split "," (join "," ps) = ps.
Proof.
  induction ps as [|p ps IH]; [congruence|]. intros _ Hall.
  inversion Hall as [|? ? Hp Hps]; subst.
  destruct ps as [|q ps].
  - clear IH Hall Hps. simpl. induction p as [|c p IHp]; [reflexivity|].
    apply andb_true_iff in Hp as [Hc Hp].
    apply negb_true_iff in Hc. simpl. rewrite Hc, (IHp Hp). reflexivity.
  - rewrite join_cons. specialize (IH ltac:(discriminate) Hps).
    clear Hall Hps. induction p as [|c p IHp].
    + rewrite append_nil, split_sep, IH. reflexivity.
    + rewrite append_cons. apply andb_true_iff in Hp as [Hc Hp].
      apply negb_true_iff in Hc. apply split_other; [exact Hc | apply IHp, Hp].
Qed.

End TextFacts.


(** * What a successful parse tells about the format *)

Section FormatShape.

Lemma match_alt_inv a : forall s tok rest,
  match_alt a s = Some (tok, rest) -> s = String.append tok rest.
Proof.
  induction a as [|k a IH]; intros s tok rest; simpl.
  - intros [= <- <-]. reflexivity.
  - destruct s as [|c s]; [discriminate|].
    destruct (in_cls k c); [|discriminate].
    destruct (match_alt a s) as [[t r]|] eqn:Hm; [|discriminate].
    intros [= <- <-]. rewrite append_cons. f_equal. apply IH, Hm.
Qed.

Lemma first_alt_split {R} alts s (k : string -> string -> option R) r :
  first_alt alts s k = Some r ->
  exists tok rest, s = String.append tok rest /\ k tok rest = Some r.
Proof.
  induction alts as [|a alts IH]; simpl; [discriminate|].
  destruct (match_alt a s) as [[tok rest]|] eqn:Hm; [|exact IH].
  destruct (k tok rest) eqn:Hk; [|exact IH].
  intros [= <-]. exists tok, rest. split; [apply match_alt_inv in Hm; exact Hm | exact Hk].
Qed.

Lemma spaces_split {R} (k : string -> option R) s r :
  spaces k s = Some r ->
  exists w s', s = String.append w s' /\ string_forall is_space w = true /\ k s' = Some r.
Proof.
  induction s as [|c s IH]; simpl.
  - intros Hk. exists EmptyString, EmptyString. auto.
  - destruct (is_space c) eqn:Hc.
    + destruct (spaces k s) eqn:Hs.
      * intros [= <-]. destruct (IH eq_refl) as (w & s' & -> & Hw & Hk).
        exists (String c w), s'. rewrite append_cons. simpl. rewrite Hc. auto.
      * intros Hk. exists EmptyString, (String c s). auto.
    + intros Hk. exists EmptyString, (String c s). auto.
Qed.

(** A comma written by the format must be read from the text. *)
Lemma same_letter_comma c : same_letter "," c = true -> c = ","%char.
Proof.
  destruct c as [[] [] [] [] [] [] [] []]; vm_compute; intros H;
    first [reflexivity | discriminate H].
Qed.

Lemma no_comma_append a b : no_comma (String.append a b) = no_comma a && no_comma b.
Proof. apply string_forall_append. Qed.

Lemma rmatch_comma p : forall s r,
  rmatch p s = Some r -> In (RChar ",") p -> no_comma s = false.
Proof.
  induction p as [|[c| |d] p IH]; intros s r; simpl.
  - intros _ [].
  - destruct s as [|c' s]; [discriminate|].
    destruct (same_letter c c') eqn:Hl; [|discriminate].
    intros Hm [[= ->] | Hin].
    + apply same_letter_comma in Hl as ->. reflexivity.
    + unfold no_comma. simpl. fold (no_comma s). rewrite (IH _ _ Hm Hin).
      apply andb_false_r.
  - destruct s as [|c' s]; [discriminate|].
    destruct (is_space c'); [|discriminate].
    intros (w & s' & -> & _ & Hk)%spaces_split [[=] | Hin].
    unfold no_comma at 1. simpl. fold (no_comma (String.append w s')).
    rewrite no_comma_append, (IH _ _ Hk Hin), !andb_false_r. reflexivity.
  - intros (tok & rest & -> & Hk)%first_alt_split [[=] | Hin].
    destruct (rmatch p rest) as [r'|] eqn:Hr; [|discriminate].
    rewrite no_comma_append, (IH _ _ Hr Hin). apply andb_false_r.
Qed.

Lemma compile_comma f : In (Lit ",") f -> In (RChar ",") (compile f).
Proof.
  induction f as [|[c|d] f IH]; simpl; [tauto | |].
  - intros [[= ->] | Hin]; [left; reflexivity|].
    specialize (IH Hin).
    destruct (is_space c); [|right; exact IH].
    destruct (compile f) as [|[] p]; simpl in *; tauto.
  - intros [[=] | Hin]. right. apply IH, Hin.
Qed.

Lemma show_no_comma d v :
  field_min d <= v <= field_max d -> no_comma (show d v) = true.
Proof.
  intros Hv. destruct (show_plain d v Hv) as (Hplain & _).
  unfold no_comma. induction (show d v) as [|c s IH]; [reflexivity|].
  simpl in *. apply andb_true_iff in Hplain as [Hc Hs]. rewrite (IH Hs), andb_true_r.
  unfold plain_char in Hc. apply andb_true_iff in Hc as [_ Hc]. exact Hc.
Qed.

Lemma strftime_no_comma dt f :
  valid dt = true -> ~ In (Lit ",") f -> no_comma (strftime dt f) = true.
Proof.
  intros Hv. induction f as [|[c|d] f IH]; simpl; intros Hnot; [reflexivity | |].
  - unfold no_comma. simpl. fold (no_comma (strftime dt f)).
    rewrite IH by tauto. rewrite andb_true_r.
    destruct (Ascii.eqb_spec c ","); [subst; tauto | reflexivity].
  - rewrite no_comma_append, IH by tauto.
    rewrite show_no_comma by (apply field_range, Hv). reflexivity.
Qed.

(** A format that ends in whitespace reads whitespace at the end of
    the text. *)
Lemma compile_nil f : compile f = [] -> f = [].
Proof.
  destruct f as [|[c|d] f]; simpl; [reflexivity | | discriminate].
  destruct (is_space c); [|discriminate]. destruct (compile f) as [|[]]; discriminate.
Qed.

Lemma compile_ends f : ends_ws f = true -> ends_RSpaces (compile f) = true.
Proof.
  induction f as [|it f IH]; [discriminate|].
  destruct f as [|it' f'].
  - destruct it as [c|d]; simpl; [|discriminate]. intros ->. reflexivity.
  - intros H. change (ends_ws (it' :: f') = true) in H. specialize (IH H).
    remember (it' :: f') as g eqn:Hg.
    assert (compile g <> []) as Hne by (intros E%compile_nil; subst; discriminate).
    destruct it as [c|d]; simpl.
    + destruct (is_space c).
      * destruct (compile g) as [|[] p]; try congruence; simpl in *;
          destruct p; auto.
      * destruct (compile g); [congruence | exact IH].
    + destruct (compile g); [congruence | exact IH].
Qed.

Lemma ends_space_append a b :
  ends_space (String.append a b) = if is_empty b then ends_space a else ends_space b.
Proof.
  induction a as [|c a IH]; [destruct b; reflexivity|].
  rewrite append_cons. simpl. rewrite IH.
  destruct a as [|c' a]; [|reflexivity].
  rewrite append_nil. destruct b; reflexivity.
Qed.

Lemma rmatch_ends p : forall s found rest,
  rmatch p s = Some (found, rest) -> ends_RSpaces p = true ->
  exists pre w, s = String.append pre (String w rest) /\ is_space w = true.
Proof.
  induction p as [|it p IH]; intros s found rest; [discriminate|].
  destruct p as [|it' p'].
  - destruct it; try discriminate. simpl.
    destruct s as [|c s]; [discriminate|].
    destruct (is_space c) eqn:Hc; [|discriminate].
    intros (w & s' & -> & Hw & [= _ ->])%spaces_split _.
    clear IH. revert c Hc. induction w as [|x w IHw]; intros c Hc.
    + exists EmptyString, c. auto.
    + simpl in Hw. apply andb_true_iff in Hw as [Hx Hw].
      destruct (IHw Hw x Hx) as (pre & y & E & Hy).
      exists (String c pre), y. rewrite !append_cons in *. rewrite E. auto.
  - intros Hm He. change (ends_RSpaces (it' :: p') = true) in He.
    remember (it' :: p') as q eqn:Hq.
    assert (exists pre0 s0 found0, s = String.append pre0 s0 /\
                                   rmatch q s0 = Some (found0, rest))
      as (pre0 & s0 & found0 & -> & Hm0).
    { destruct it as [c| |d]; simpl in Hm.
      - destruct s as [|c' s]; [discriminate|].
        destruct (same_letter c c'); [|discriminate].
        exists (String c' EmptyString), s, found. auto.
      - destruct s as [|c' s]; [discriminate|].
        destruct (is_space c'); [|discriminate].
        apply spaces_split in Hm as (w & s' & -> & _ & Hk).
        exists (String c' w), s', found. auto.
      - apply first_alt_split in Hm as (tok & rest' & -> & Hk).
        destruct (rmatch q rest') as [[found' r']|] eqn:Hr; [|discriminate].
        injection Hk as <- <-. exists tok, rest', found'. auto. }
    destruct (IH _ _ _ Hm0 He) as (pre & w & -> & Hw).
    exists (String.append pre0 pre), w. rewrite append_assoc. auto.
Qed.

Lemma show_ends d v :
  field_min d <= v <= field_max d -> ends_space (show d v) = false.
Proof.
  intros Hv. destruct (show_plain d v Hv) as (Hplain & _).
  induction (show d v) as [|c s IH]; [reflexivity|].
  simpl in *. apply andb_true_iff in Hplain as [Hc Hs].
  destruct (is_empty s); [|exact (IH Hs)].
  unfold plain_char in Hc. apply andb_true_iff in Hc as [Hc _].
  apply negb_true_iff, Hc.
Qed.

Lemma strftime_empty dt f : valid dt = true -> strftime dt f = EmptyString -> f = [].
Proof.
  intros Hv. destruct f as [|[c|d] f]; simpl; [reflexivity | discriminate |].
  destruct (show_plain d (field d dt) (field_range d dt Hv)) as (_ & Hne).
  destruct (show d (field d dt)); [congruence | discriminate].
Qed.

Lemma strftime_ends dt f :
  valid dt = true -> ends_ws f = false -> ends_space (strftime dt f) = false.
Proof.
  intros Hv. induction f as [|it f IH]; [reflexivity|].
  destruct f as [|it' f'].
  - destruct it as [c|d]; simpl.
    + intros ->. reflexivity.
    + intros _. rewrite append_empty_r. apply show_ends, field_range, Hv.
  - intros H. change (ends_ws (it' :: f') = false) in H. specialize (IH H).
    remember (it' :: f') as g eqn:Hg.
    assert (is_empty (strftime dt g) = false) as Hne.
    { destruct (strftime dt g) eqn:E; [|reflexivity].
      apply strftime_empty in E; [subst; discriminate | exact Hv]. }
    destruct it as [c|d]; simpl.
    + rewrite Hne. exact IH.
    + rewrite ends_space_append, Hne. exact IH.
Qed.

(** A masked value written with the format of a parsed field is as
    clean as the field was: no comma, no whitespace at either end. *)
Lemma strftime_clean s f dt dt' :
  strptime s f = Ok dt -> valid dt' = true ->
  (no_comma s = true -> no_comma (strftime dt' f) = true) /\
  (starts_space s = false -> starts_space (strftime dt' f) = false) /\
  (ends_space s = false -> ends_space (strftime dt' f) = false).
Proof.
  intros Hparse Hv. unfold strptime in Hparse.
  destruct (dup_free (directives f)); simpl in Hparse; [|discriminate].
  destruct (rmatch (compile f) s) as [[found rest]|] eqn:Hm; [|discriminate].
  destruct (is_empty rest) eqn:Hrest; simpl in Hparse; [|discriminate].
  apply is_empty_true in Hrest as ->. clear Hparse.
  split; [|split].
  - intros Hs. apply strftime_no_comma; [exact Hv|].
    intros Hin%compile_comma. rewrite (rmatch_comma _ _ _ Hm Hin) in Hs. discriminate.
  - intros Hs. apply strftime_starts; [exact Hv|].
    destruct (compile f) as [|[] p]; try reflexivity.
    simpl in Hm. destruct s as [|c s]; [discriminate|]. simpl in Hs. rewrite Hs in Hm.
    discriminate.
  - intros Hs. apply strftime_ends; [exact Hv|].
    destruct (ends_ws f) eqn:He; [|reflexivity].
    destruct (rmatch_ends _ _ _ _ Hm (compile_ends f He)) as (pre & w & -> & Hw).
    rewrite ends_space_append in Hs. simpl in Hs. congruence.
Qed.

Lemma strptime_raises s f e : strptime s f = Raise e -> is_Exception e = true.
Proof.
  unfold strptime. destruct (dup_free (directives f)); simpl; [|intros [= <-]; reflexivity].
  destruct (rmatch (compile f) s) as [[found rest]|]; [|intros [= <-]; reflexivity].
  destruct (is_empty rest); simpl; [|intros [= <-]; reflexivity].
  destruct (make _ _ _ _ _ _); [discriminate | intros [= <-]; reflexivity].
Qed.

End FormatShape.


(** * The line processor *)

Section LineProcessor.

Lemma shift_date_returns date_str date_format shift_days st :
  0 <= shift_days ->
  exists r st', shift_date date_str date_format shift_days st = (Ok r, st') /\
    files st' = files st /\
    (forall out, r = Some out -> masked_from date_str date_format out).
Proof.
  intros Hpos. destruct (strptime date_str date_format) as [dt|e] eqn:Hparse.
  - rewrite (shift_date_eval _ _ _ Hparse _ _ Hpos).
    destruct (add_days dt _) as [nd|] eqn:Hadd.
    + eexists _, _. split; [reflexivity|]. split; [reflexivity|].
      intros out [= <-]. right. exists dt, nd. split; [exact Hparse|].
      split; [|reflexivity].
      eapply add_days_Some; [|exact Hadd]. apply strptime_Ok in Hparse. tauto.
    + eexists _, _. split; [reflexivity|]. split; [reflexivity|]. discriminate.
  - unfold shift_date, except_log, try_except, bind, of_result. rewrite Hparse.
    unfold raise. rewrite (strptime_raises _ _ _ Hparse).
    destruct e; (eexists None, _; split; [reflexivity|]; split; [reflexivity|]; discriminate).
Qed.

Lemma bucket_date_returns date_str date_format bucket_interval st :
  exists r st', bucket_date date_str date_format bucket_interval st = (Ok r, st') /\
    files st' = files st /\ draws st' = draws st /\
    (forall out, r = Some out -> masked_from date_str date_format out).
Proof.
  destruct (strptime date_str date_format) as [dt|e] eqn:Hparse.
  - pose proof (strptime_Ok _ _ _ Hparse) as (Hv & _).
    destruct (String.eqb_spec bucket_interval "day") as [->|Hday].
    { rewrite (bucket_date_day _ _ _ Hparse). eexists _, _.
      repeat (split; [reflexivity|]). intros out [= <-]. right. eauto. }
    destruct (String.eqb_spec bucket_interval "week") as [->|Hweek].
    { destruct (bucket_date_week _ _ _ Hparse st) as (monday & Hadd & ->).
      eexists _, _. repeat (split; [reflexivity|]). intros out [= <-]. right.
      exists dt, monday. split; [exact Hparse|]. split; [|reflexivity].
      eapply add_days_Some; [exact Hv | exact Hadd]. }
    destruct (String.eqb_spec bucket_interval "month") as [->|Hmonth].
    { rewrite (bucket_date_month _ _ _ Hparse). eexists _, _.
      repeat (split; [reflexivity|]). intros out [= <-]. right.
      eexists dt, _. split; [exact Hparse|]. split; [|reflexivity].
      pose proof (replace_day_first dt Hv) as Hrep. unfold replace_day in Hrep.
      apply make_Some in Hrep. tauto. }
    unfold bucket_date, except_log, try_except, bind, of_result. rewrite Hparse.
    unfold ret.
    apply String.eqb_neq in Hday, Hweek, Hmonth. rewrite Hday, Hweek, Hmonth.
    eexists None, _. repeat (split; [reflexivity|]). discriminate.
  - unfold bucket_date, except_log, try_except, bind, of_result. rewrite Hparse.
    unfold raise. rewrite (strptime_raises _ _ _ Hparse).
    destruct e; (eexists None, _; repeat (split; [reflexivity|]); discriminate).
Qed.

Lemma randomize_time_returns date_str date_format st :
  exists r st', randomize_time date_str date_format st = (Ok r, st') /\
    files st' = files st /\
    (forall out, r = Some out -> masked_from date_str date_format out).
Proof.
  destruct (strptime date_str date_format) as [dt|e] eqn:Hparse.
  - rewrite (randomize_time_eval _ _ _ Hparse).
    eexists _, _. repeat (split; [reflexivity|]). intros out [= <-]. right.
    eexists dt, _. split; [exact Hparse|]. split; [|reflexivity].
    pose proof (strptime_Ok _ _ _ Hparse) as (Hv & _).
    apply valid_spec in Hv as (Hd & _). apply valid_spec. simpl.
    pose proof (Z.mod_pos_bound (draws st 0%nat) 24 ltac:(lia)).
    pose proof (Z.mod_pos_bound (draws st 1%nat) 60 ltac:(lia)).
    pose proof (Z.mod_pos_bound (draws st 2%nat) 60 ltac:(lia)).
    split; [exact Hd | lia].
  - unfold randomize_time, except_log, try_except, bind, of_result. rewrite Hparse.
    unfold raise. rewrite (strptime_raises _ _ _ Hparse).
    destruct e; (eexists None, _; repeat (split; [reflexivity|]); discriminate).
Qed.

Lemma mask_returns date_str date_format shift_days bucket_interval randomize_time_flag st :
  exists r st',
    mask date_str date_format shift_days bucket_interval randomize_time_flag st = (Ok r, st') /\
    files st' = files st /\
    (forall out, r = Some out -> masked_from date_str date_format out).
Proof.
  unfold mask. destruct (Z.ltb_spec 0 shift_days).
  - apply shift_date_returns. lia.
  - destruct (truthy bucket_interval).
    + destruct (bucket_date_returns date_str date_format (default EmptyString bucket_interval) st)
        as (r & st' & H1 & H2 & _ & H3). eauto.
    + destruct randomize_time_flag; [apply randomize_time_returns|].
      eexists _, _. repeat (split; [reflexivity|]). intros out [= <-]. left. reflexivity.
Qed.

(** A masked value is as clean as the field it replaces. *)
Lemma masked_from_clean date_str date_format masked :
  masked_from date_str date_format masked ->
  (no_comma date_str = true -> no_comma masked = true) /\
  (starts_space date_str = false -> starts_space masked = false) /\
  (ends_space date_str = false -> ends_space masked = false).
Proof.
  intros [-> | (dt & dt' & Hparse & Hv & ->)]; [tauto|].
  apply (strftime_clean _ _ _ _ Hparse Hv).
Qed.

(** The loop body, case by case. *)
Lemma process_line_cases outfile column_index date_format shift_days bucket_interval
    randomize_time_flag line st :
  let l := strip line in
  let parts := split "," l in
  process_line outfile column_index date_format shift_days bucket_interval
               randomize_time_flag line st =
  if is_empty l then (Ok tt, append_file outfile newline st)
  else if Z.of_nat (length parts) <=? column_index then
    (Ok tt, append_file outfile (String.append l newline)
                        (add_log WARNING (NotEnoughColumns l) st))
  else
    match py_index (length parts) column_index with
    | None => (Raise IndexError, st)
    | Some i =>
        match mask (strip (nth i parts EmptyString)) date_format shift_days
                   bucket_interval randomize_time_flag st with
        | (Ok None, st1) =>
            (Ok tt, append_file outfile (String.append l newline)
                                (add_log WARNING (FailedToMask l) st1))
        | (Ok (Some masked), st1) =>
            (Ok tt, append_file outfile
                      (String.append (join "," (<[i := masked]> parts)) newline) st1)
        | (Raise e, st1) => (Raise e, st1)
        end
    end.
Proof.
  intros l parts. unfold process_line. fold l. fold parts.
  destruct (is_empty l); [reflexivity|].
  destruct (Z.of_nat (length parts) <=? column_index); [reflexivity|].
  unfold bind, lift. destruct (py_index (length parts) column_index) as [i|]; [|reflexivity].
  unfold ret. destruct (mask _ _ _ _ _ st) as [[[masked|]|e] st1]; reflexivity.
Qed.

End LineProcessor.


(** * Files and lists *)

Section Frames.

Lemma content_append_file path text st :
  content path (append_file path text st) = String.append (content path st) text.
Proof. unfold content, append_file, set_files. simpl. rewrite lookup_insert_eq. reflexivity. Qed.

Lemma nth_lookup_string (parts : list string) i x :
  parts !! i = Some x -> nth i parts EmptyString = x.
Proof. intros H. rewrite nth_lookup, H. reflexivity. Qed.

Lemma py_index_Some len ci i :
  py_index len ci = Some i -> (i < len)%nat.
Proof.
  unfold py_index.
  destruct ((0 <=? ci) && (ci <? Z.of_nat len)) eqn:H1.
  - apply andb_true_iff in H1 as [?%Z.leb_le ?%Z.ltb_lt]. intros [= <-]. lia.
  - destruct ((ci <? 0) && (- Z.of_nat len <=? ci)) eqn:H2; [|discriminate].
    apply andb_true_iff in H2 as [?%Z.ltb_lt ?%Z.leb_le]. intros [= <-]. lia.
Qed.

(** Replacing one field of a record changes the joined text between
    two fixed pieces, each empty or bounded by a comma. *)
Lemma join_insert_frame (parts : list string) : forall i x,
  parts !! i = Some x ->
  exists A C,
    (forall y, join "," (<[i := y]> parts) = String.append A (String.append y C)) /\
    (A = EmptyString \/ exists A', A = String.append A' ",") /\
    (C = EmptyString \/ exists C', C = String "," C').
Proof.
  induction parts as [|p ps IH]; intros i x Hx; [discriminate|].
  destruct i as [|i]; simpl in Hx.
  - exists EmptyString. destruct ps as [|q ps].
    + exists EmptyString. split; [|auto]. intros y. simpl. rewrite append_empty_r.
      reflexivity.
    + exists (String "," (join "," (q :: ps))). split; [|eauto]. intros y. reflexivity.
  - destruct (IH i x Hx) as (A & C & Hjoin & HA & HC).
    exists (String.append p (String "," A)), C. split; [|split; [right | exact HC]].
    + intros y. specialize (Hjoin y).
      change (<[S i := y]> (p :: ps)) with (p :: <[i := y]> ps).
      destruct (<[i := y]> ps) as [|q qs] eqn:E.
      { apply (f_equal length) in E. rewrite length_insert in E.
        apply lookup_lt_Some in Hx. simpl in E. lia. }
      rewrite join_cons, Hjoin, append_assoc, append_cons. reflexivity.
    + destruct HA as [-> | [A' ->]].
      * exists p. reflexivity.
      * exists (String.append p (String "," A')).
        rewrite append_assoc, append_cons. reflexivity.
Qed.

Lemma starts_space_append a b :
  starts_space (String.append a b) = if is_empty a then starts_space b else starts_space a.
Proof. destruct a; reflexivity. Qed.

Lemma is_empty_append a b : is_empty (String.append a b) = is_empty a && is_empty b.
Proof. destruct a; reflexivity. Qed.

(** Such a replacement keeps the text free of outer whitespace when
    the new field is. *)
Lemma frame_clean A C x y :
  (A = EmptyString \/ exists A', A = String.append A' ",") ->
  (C = EmptyString \/ exists C', C = String "," C') ->
  starts_space (String.append A (String.append x C)) = false ->
  ends_space (String.append A (String.append x C)) = false ->
  starts_space y = false -> ends_space y = false ->
  starts_space (String.append A (String.append y C)) = false /\
  ends_space (String.append A (String.append y C)) = false.
Proof.
  intros HA HC Hs He Hys Hye.
  rewrite !starts_space_append in *. rewrite !ends_space_append in *.
  rewrite !is_empty_append in *.
  split.
  - destruct (is_empty A); [|exact Hs].
    destruct (is_empty y) eqn:Ey; [|exact Hys].
    destruct HC as [-> | [C' ->]]; reflexivity.
  - destruct (is_empty C) eqn:EC.
    + rewrite andb_true_r in *. destruct (is_empty y) eqn:Ey; [|exact Hye].
      destruct HA as [-> | [A' ->]]; [reflexivity|].
      rewrite ends_space_append. reflexivity.
    + rewrite andb_false_r in *. exact He.
Qed.

Lemma strip_blank s : string_forall is_space s = true -> strip s = EmptyString.
Proof.
  unfold strip. induction s as [|c s IH]; [reflexivity|].
  simpl. intros [Hc Hs]%andb_true_iff. rewrite Hc. apply IH, Hs.
Qed.

End Frames.


(** * The properties of the specification *)

(** ** Option checks of [main] *)

(** With a positive shift and a bucket interval, [main] stops in
    [parser.error]: usage is printed, the status is 2, and nothing
    else happens. *)
Lemma main_conflict a st :
  0 < args_shift_days a -> truthy (args_bucket_interval a) = true ->
  run a st = (2, add_event (PrintUsage mutually_exclusive_msg) st).
Proof.
  intros Hs Hb. unfold run, main, when, bind.
  apply Z.ltb_lt in Hs. rewrite Hs, Hb. reflexivity.
Qed.

(** C1: with both [--shift_days 5] and [--bucket_interval week] the
    process ends before any file is opened, but with status 2, the
    status of [parser.error], and not with the status 1 of the
    [sys.exit(1)] that follows it in the source. *)
Theorem main_conflict_exit_status :
  fst (run conflicting one_file) = 2 /\
  fst (run conflicting one_file) <> 1 /\
  trace (snd (run conflicting one_file)) = [PrintUsage mutually_exclusive_msg] /\
  files (snd (run conflicting one_file)) = files one_file.
Proof.
  rewrite (main_conflict conflicting one_file); [|reflexivity..].
  repeat split. discriminate.
Qed.

(** ** The codec round trip *)

(** C2, as stated, fails: ["2023-1-5"] parses under ["%Y-%m-%d"], and
    formatting the result gives ["2023-01-05"]; bucketing by day
    returns that text, not its input.  Before the year 1000 the text
    written is not even read back: ["0999-05-17"] is written
    ["999-05-17"], which does not parse. *)
Lemma roundtrip_not_verbatim :
  strptime "2023-1-5" iso_date = Ok (mkdt 2023 1 5 0 0 0) /\
  strftime (mkdt 2023 1 5 0 0 0) iso_date = "2023-01-05" /\
  strftime (mkdt 2023 1 5 0 0 0) iso_date <> "2023-1-5" /\
  bucket_date "2023-1-5" iso_date "day" idle = (Ok (Some "2023-01-05"), idle) /\
  strptime "0999-05-17" iso_date = Ok (mkdt 999 5 17 0 0 0) /\
  strftime (mkdt 999 5 17 0 0 0) iso_date = "999-05-17" /\
  strftime (mkdt 999 5 17 0 0 0) iso_date <> "0999-05-17" /\
  strptime "999-05-17" iso_date = Raise ValueError.
Proof. repeat split; discriminate. Qed.

(** C2, amended: for a pattern [P] built from %Y %m %d %H %M %S, %%
    and literal characters, when [D] parses under [P], bucketing by
    day returns the text [format(parse(D, P), P)]; and when the year
    parsed is 1000 or later this text is canonical: it parses to the
    same value, a further round trip reproduces it exactly, and
    bucketing it by day returns it unchanged. *)
Theorem roundtrip_canonical D P dt st :
  strptime D P = Ok dt ->
  bucket_date D P "day" st = (Ok (Some (strftime dt P)), st) /\
  (1000 <= year dt ->
   strptime (strftime dt P) P = Ok dt /\
   bucket_date (strftime dt P) P "day" st = (Ok (Some (strftime dt P)), st)).
Proof.
  intros Hparse. split; [apply bucket_date_day; assumption|]. intros Hy.
  assert (strptime (strftime dt P) P = Ok dt) as Hcanon.
  { destruct (strptime_Ok _ _ _ Hparse) as (Hv & Hdup & Hdef).
    apply strptime_strftime; assumption. }
  split; [exact Hcanon|]. apply bucket_date_day; assumption.
Qed.

Lemma roundtrip_canonical_witness :
  strptime "2023-1-5" iso_date = Ok (mkdt 2023 1 5 0 0 0) /\
  bucket_date "2023-1-5" iso_date "day" idle = (Ok (Some "2023-01-05"), idle) /\
  (1000 <= 2023 ->
   strptime "2023-01-05" iso_date = Ok (mkdt 2023 1 5 0 0 0) /\
   bucket_date "2023-01-05" iso_date "day" idle = (Ok (Some "2023-01-05"), idle)).
Proof.
  split; [reflexivity|].
  apply (roundtrip_canonical "2023-1-5" iso_date (mkdt 2023 1 5 0 0 0) idle).
  reflexivity.
Defined.

(** ** The strategies *)




(** C9: [randomize_time] keeps year, month and day and takes hour,
    minute and second from three successive draws of the generator,
    each reduced to its own range: 0..23, 0..59 and 0..59.  Every
    combination of the three is drawn by some state of the
    generator. *)
Theorem randomize_time_spec date_str date_format dt st :
  strptime date_str date_format = Ok dt ->
  (exists new_datetime st',
      randomize_time date_str date_format st =
        (Ok (Some (strftime new_datetime date_format)), st') /\
      valid new_datetime = true /\
      year new_datetime = year dt /\ month new_datetime = month dt /\
      day new_datetime = day dt /\
      hour new_datetime = draws st 0%nat mod 24 /\
      minute new_datetime = draws st 1%nat mod 60 /\
      second new_datetime = draws st 2%nat mod 60 /\
      0 <= hour new_datetime <= 23 /\ 0 <= minute new_datetime <= 59 /\
      0 <= second new_datetime <= 59) /\
  (forall H Mi S, 0 <= H <= 23 -> 0 <= Mi <= 59 -> 0 <= S <= 59 ->
      exists st',
        randomize_time date_str date_format (with_draws [H; Mi; S] st) =
          (Ok (Some (strftime (mkdt (year dt) (month dt) (day dt) H Mi S) date_format)),
           st')).
Proof.
  intros Hparse. pose proof (strptime_Ok _ _ _ Hparse) as (Hv & _).
  apply valid_spec in Hv as (Hd & _). split.
  - eexists _, _. split; [apply (randomize_time_eval _ _ _ Hparse)|].
    pose proof (Z.mod_pos_bound (draws st 0%nat) 24 ltac:(lia)).
    pose proof (Z.mod_pos_bound (draws st 1%nat) 60 ltac:(lia)).
    pose proof (Z.mod_pos_bound (draws st 2%nat) 60 ltac:(lia)).
    split; [apply valid_spec; simpl; split; [exact Hd | lia]|].
    simpl. repeat split; lia.
  - intros H Mi S HH HM HS. eexists.
    rewrite (randomize_time_eval _ _ _ Hparse). simpl.
    rewrite !Z.mod_small by lia. reflexivity.
Qed.





Lemma randomize_time_spec_witness :
  strptime "2023-01-15 10:30:00" iso_datetime = Ok (mkdt 2023 1 15 10 30 0) /\
  (exists new_datetime st',
      randomize_time "2023-01-15 10:30:00" iso_datetime idle =
        (Ok (Some (strftime new_datetime iso_datetime)), st') /\
      valid new_datetime = true /\
      year new_datetime = 2023 /\ month new_datetime = 1 /\ day new_datetime = 15 /\
      hour new_datetime = draws idle 0%nat mod 24 /\
      minute new_datetime = draws idle 1%nat mod 60 /\
      second new_datetime = draws idle 2%nat mod 60 /\
      0 <= hour new_datetime <= 23 /\ 0 <= minute new_datetime <= 59 /\
      0 <= second new_datetime <= 59) /\
  (forall H Mi S, 0 <= H <= 23 -> 0 <= Mi <= 59 -> 0 <= S <= 59 ->
      exists st',
        randomize_time "2023-01-15 10:30:00" iso_datetime (with_draws [H; Mi; S] idle) =
          (Ok (Some (strftime (mkdt 2023 1 15 H Mi S) iso_datetime)), st')).
Proof.
  split; [reflexivity|].
  apply (randomize_time_spec "2023-01-15 10:30:00" iso_datetime (mkdt 2023 1 15 10 30 0) idle).
  reflexivity.
Defined.

(** ** The line processor *)

Section Lines.

Variables (outfile : string) (column_index : Z) (date_format : format).
Variables (shift_days : Z) (bucket_interval : option string) (randomize_time_flag : bool).

Local Abbreviation body := (process_line outfile column_index date_format shift_days
                               bucket_interval randomize_time_flag).
Local Abbreviation mask_field x := (mask (strip x) date_format shift_days bucket_interval
                               randomize_time_flag).

(** What the two pass-through paths do: a line that is not blank and
    has too few fields, or whose field is not masked, is written
    without its outer whitespace and with one newline after it; a
    warning is logged, and the loop goes on with the next line. *)
Theorem pass_through_stripped line lines st st1 :
  is_empty (strip line) = false ->
  (Z.of_nat (length (split "," (strip line))) <= column_index /\ st1 = st) \/
  (exists i,
      column_index < Z.of_nat (length (split "," (strip line))) /\
      py_index (length (split "," (strip line))) column_index = Some i /\
      mask_field (nth i (split "," (strip line)) EmptyString) st = (Ok None, st1)) ->
  exists warning,
    (warning = NotEnoughColumns (strip line) \/ warning = FailedToMask (strip line)) /\
    body line st =
      (Ok tt, append_file outfile (String.append (strip line) newline)
                          (add_log WARNING warning st1)) /\
    for_each (line :: lines) body st =
      for_each lines body (append_file outfile (String.append (strip line) newline)
                                       (add_log WARNING warning st1)).
Proof.
  intros Hne Hcase.
  assert (exists warning,
            (warning = NotEnoughColumns (strip line) \/ warning = FailedToMask (strip line)) /\
            body line st =
              (Ok tt, append_file outfile (String.append (strip line) newline)
                                  (add_log WARNING warning st1)))
    as (warning & Hw & Hrun).
  { rewrite process_line_cases, Hne.
    destruct Hcase as [[Hshort ->] | (i & Hlong & Hi & Hmask)].
    - apply Z.leb_le in Hshort. rewrite Hshort. eauto.
    - apply Z.leb_gt in Hlong. rewrite Hlong, Hi, Hmask. eauto. }
  exists warning. split; [exact Hw|]. split; [exact Hrun|].
  simpl. unfold bind at 1. rewrite Hrun. reflexivity.
Qed.

(** What the success path does: the record written is the record of
    the stripped line with the field at the column index replaced:
    same number of fields, the other fields of the stripped line as
    they were and where they were, and splitting the written text on
    commas gives exactly these fields. *)
Theorem masked_line_frame line st i masked st1 :
  is_empty (strip line) = false ->
  column_index < Z.of_nat (length (split "," (strip line))) ->
  py_index (length (split "," (strip line))) column_index = Some i ->
  mask_field (nth i (split "," (strip line)) EmptyString) st = (Ok (Some masked), st1) ->
  let parts := split "," (strip line) in
  let written := <[i := masked]> parts in
  body line st = (Ok tt, append_file outfile (String.append (join "," written) newline) st1) /\
  length written = length parts /\
  written !! i = Some masked /\
  (forall j, j <> i -> written !! j = parts !! j) /\
  split "," (join "," written) = written.
Proof.
  intros Hne Hlong Hi Hmask parts written.
  pose proof (py_index_Some _ _ _ Hi) as Hlt. fold parts in Hlt.
  split; [|split; [|split; [|split]]].
  - rewrite process_line_cases, Hne. apply Z.leb_gt in Hlong.
    rewrite Hlong, Hi, Hmask. reflexivity.
  - apply length_insert.
  - apply list_lookup_insert_eq, Hlt.
  - intros j Hj. apply list_lookup_insert_ne. congruence.
  - apply split_join.
    + intros E. apply (f_equal length) in E. unfold written in E.
      rewrite length_insert in E. simpl in E. lia.
    + apply Forall_insert; [apply split_no_comma|].
      destruct (lookup_lt_is_Some_2 parts i Hlt) as [x Hx].
      destruct (mask_returns (strip (nth i parts EmptyString)) date_format shift_days
                  bucket_interval randomize_time_flag st) as (r & st' & Hm & _ & Hfrom).
      fold parts in Hmask. rewrite Hmask in Hm. injection Hm as <- <-.
      apply (masked_from_clean _ _ _ (Hfrom masked eq_refl)).
      apply strip_no_comma. rewrite (nth_lookup_string _ _ _ Hx).
      pose proof (split_no_comma (strip line)) as Hall. fold parts in Hall.
      rewrite Forall_lookup in Hall. apply (Hall i x Hx).
Qed.


(** C10: a line is stripped before anything else is done with it.  The
    loop body gives the same result for a line and for the stripped
    line; a line of whitespace only is written as one newline; and
    whenever the body returns, it has appended to the output file one
    text and a newline, where the text neither starts nor ends with
    whitespace, and is the stripped line itself when the line has too
    few fields or its field is not masked. *)
Theorem line_is_stripped line st :
  body line st = body (strip line) st /\
  (string_forall is_space line = true ->
   body line st = (Ok tt, append_file outfile newline st)) /\
  (forall st', body line st = (Ok tt, st') ->
     exists text,
       content outfile st' =
         String.append (content outfile st) (String.append text newline) /\
       starts_space text = false /\ ends_space text = false /\
       (Z.of_nat (length (split "," (strip line))) <= column_index \/
        (exists i st1,
            py_index (length (split "," (strip line))) column_index = Some i /\
            mask_field (nth i (split "," (strip line)) EmptyString) st = (Ok None, st1)) ->
        text = strip line)).
Proof.
  split; [|split].
  - rewrite !process_line_cases, strip_idempotent. reflexivity.
  - intros Hblank. rewrite process_line_cases, (strip_blank _ Hblank). reflexivity.
  - intros st'. rewrite process_line_cases.
    set (l := strip line). set (parts := split "," l).
    assert (starts_space l = false /\ ends_space l = false) as [Hls Hle]
      by (split; [apply strip_starts | apply strip_ends]).
    destruct (is_empty l) eqn:Hempty.
    { intros [= <-]. exists EmptyString. rewrite content_append_file.
      repeat split. intros _. symmetry. apply is_empty_true, Hempty. }
    destruct (Z.leb_spec (Z.of_nat (length parts)) column_index) as [Hshort|Hlong].
    { intros [= <-]. exists l. rewrite content_append_file. auto. }
    destruct (py_index (length parts) column_index) as [i|] eqn:Hi; [|discriminate].
    destruct (mask_returns (strip (nth i parts EmptyString)) date_format shift_days
                bucket_interval randomize_time_flag st) as (r & st1 & Hm & Hfiles & Hfrom).
    rewrite Hm.
    assert (content outfile st1 = content outfile st) as Hcontent
      by (unfold content; rewrite Hfiles; reflexivity).
    destruct r as [masked|].
    + intros [= <-]. exists (join "," (<[i := masked]> parts)).
      rewrite content_append_file, Hcontent. split; [reflexivity|].
      pose proof (py_index_Some _ _ _ Hi) as Hlt.
      destruct (lookup_lt_is_Some_2 parts i Hlt) as [x Hx].
      destruct (join_insert_frame parts i x Hx) as (A & C & Hjoin & HA & HC).
      assert (l = String.append A (String.append x C)) as El.
      { rewrite <- Hjoin, list_insert_id by exact Hx. symmetry. apply join_split. }
      rewrite (nth_lookup_string _ _ _ Hx) in Hfrom.
      destruct (masked_from_clean _ _ _ (Hfrom masked eq_refl)) as (_ & Hms & Hme).
      rewrite Hjoin. rewrite El in Hls, Hle.
      destruct (frame_clean A C x masked HA HC Hls Hle
                  (Hms (strip_starts x)) (Hme (strip_ends x))) as [Hs He].
      repeat split; try assumption.
      intros [Hshort | (i' & st2 & Hi' & Hnone)]; [lia|].
      injection Hi' as <-.
      rewrite (nth_lookup_string _ _ _ Hx) in Hnone.
      rewrite (nth_lookup_string _ _ _ Hx) in Hm. congruence.
    + intros [= <-]. exists l. rewrite content_append_file.
      change (content outfile (add_log WARNING (FailedToMask l) st1))
        with (content outfile st1).
      rewrite Hcontent. auto.
Qed.

End Lines.

(** C3: the code does not do what the claim, the comment on line 92
    and the warning of line 109 say.  The line [" foo"] (too few
    fields for column 2) and the line [" 1,not-a-date,3"] (no date in
    column 1) are written without their leading space, not as they
    were read: [line] was rebound to [line.strip()] on line 84. *)
Lemma pass_through_not_verbatim :
  content "out.csv"
    (snd (process_line "out.csv" 2 iso_date 0 (Some "month") false
            (String.append " foo" newline) idle)) = String.append "foo" newline /\
  content "out.csv"
    (snd (process_line "out.csv" 1 iso_date 0 (Some "month") false
            (String.append " 1,not-a-date,3" newline) idle))
    = String.append "1,not-a-date,3" newline /\
  String.append "foo" newline <> String.append " foo" newline /\
  String.append "1,not-a-date,3" newline <> String.append " 1,not-a-date,3" newline.
Proof. repeat split; discriminate. Qed.

Lemma pass_through_stripped_witness :
  is_empty (strip (String.append " foo" newline)) = false /\
  Z.of_nat (length (split "," (strip (String.append " foo" newline)))) <= 2 /\
  exists warning,
    (warning = NotEnoughColumns "foo" \/ warning = FailedToMask "foo") /\
    process_line "out.csv" 2 iso_date 0 (Some "month") false
                 (String.append " foo" newline) idle =
      (Ok tt, append_file "out.csv" (String.append "foo" newline)
                          (add_log WARNING warning idle)) /\
    for_each [String.append " foo" newline]
             (process_line "out.csv" 2 iso_date 0 (Some "month") false) idle =
      for_each [] (process_line "out.csv" 2 iso_date 0 (Some "month") false)
               (append_file "out.csv" (String.append "foo" newline)
                            (add_log WARNING warning idle)).
Proof.
  split; [reflexivity|]. split; [vm_compute; discriminate|].
  apply (pass_through_stripped "out.csv" 2 iso_date 0 (Some "month") false
           (String.append " foo" newline) [] idle idle).
  - reflexivity.
  - left. split; [vm_compute; discriminate | reflexivity].
Defined.

Lemma masked_line_frame_witness :
  is_empty (strip sample_line) = false /\
  1 < Z.of_nat (length (split "," (strip sample_line))) /\
  py_index (length (split "," (strip sample_line))) 1 = Some 1%nat /\
  mask (strip (nth 1 (split "," (strip sample_line)) EmptyString)) iso_date 0
       (Some "month") false idle = (Ok (Some "2023-01-01"), idle) /\
  process_line "out.csv" 1 iso_date 0 (Some "month") false sample_line idle =
    (Ok tt, append_file "out.csv"
              (String.append "1,2023-01-01,2023-01-15 10:30:00" newline) idle) /\
  split "," "1,2023-01-01,2023-01-15 10:30:00" =
    ["1"; "2023-01-01"; "2023-01-15 10:30:00"].
Proof.
  pose proof (masked_line_frame "out.csv" 1 iso_date 0 (Some "month") false sample_line
                idle 1%nat "2023-01-01" idle) as H.
  assert (is_empty (strip sample_line) = false) as H1 by reflexivity.
  assert (1 < Z.of_nat (length (split "," (strip sample_line)))) as H2
    by (vm_compute; reflexivity).
  assert (py_index (length (split "," (strip sample_line))) 1 = Some 1%nat) as H3
    by reflexivity.
  assert (mask (strip (nth 1 (split "," (strip sample_line)) EmptyString)) iso_date 0
               (Some "month") false idle = (Ok (Some "2023-01-01"), idle)) as H4
    by reflexivity.
  destruct (H H1 H2 H3 H4) as (Hrun & _ & _ & _ & Hsplit).
  repeat split; assumption.
Defined.

(** C4: the code changes fields other than the one at the column
    index.  The line [" a,2023-01-15, b "], masked in column 1, has
    the fields [" a"] and [" b "] around the date; they are written
    ["a"] and [" b"]: [line.strip()] on line 84 took the whitespace at
    both ends of the line away before the line was split. *)
Theorem masked_line_outer_fields :
  split "," padded_record = [" a"; "2023-01-15"; " b "] /\
  content "out.csv"
    (snd (process_line "out.csv" 1 iso_date 0 (Some "month") false
            (String.append padded_record newline) idle))
    = String.append "a,2023-01-01, b" newline /\
  split "," "a,2023-01-01, b" = ["a"; "2023-01-01"; " b"] /\
  "a" <> " a" /\ " b" <> " b ".
Proof. repeat split; discriminate. Qed.

(** * Further properties of the program *)

(** ** The calendar, continued *)

Section CalendarOrder.

Lemma days_before_year_mono y y' : y <= y' -> days_before_year y <= days_before_year y'.
Proof. intros H. unfold days_before_year. divmod. Qed.

(** [_ymd2ord] is one-to-one on the dates of the calendar. *)
Lemma ymd2ord_inj y m d y' m' d' :
  valid_date y m d = true -> valid_date y' m' d' = true ->
  ymd2ord y m d = ymd2ord y' m' d' -> (y, m, d) = (y', m', d').
Proof.
  rewrite !valid_date_spec. intros (Hy & Hm & Hd) (Hy' & Hm' & Hd') E.
  unfold ymd2ord in E.
  pose proof (day_of_year_range y m d Hm Hd) as R.
  pose proof (day_of_year_range y' m' d' Hm' Hd') as R'.
  assert (y = y') as <-.
  { destruct (Z.lt_trichotomy y y') as [Hlt | [Heq | Hgt]]; [exfalso | exact Heq | exfalso].
    - pose proof (days_before_year_mono (y + 1) y' ltac:(lia)) as Hmono.
      rewrite days_before_year_succ in Hmono. lia.
    - pose proof (days_before_year_mono (y' + 1) y ltac:(lia)) as Hmono.
      rewrite days_before_year_succ in Hmono. lia. }
  assert (days_before_month y m + d = days_before_month y m' + d') as E' by lia.
  clear E R R'. rewrite days_in_month_eq in Hd, Hd'. unfold days_before_month in E'.
  assert (m = m') as <-.
  { assert (m = 1 \/ m = 2 \/ m = 3 \/ m = 4 \/ m = 5 \/ m = 6 \/ m = 7 \/
            m = 8 \/ m = 9 \/ m = 10 \/ m = 11 \/ m = 12) as Hc by lia.
    assert (m' = 1 \/ m' = 2 \/ m' = 3 \/ m' = 4 \/ m' = 5 \/ m' = 6 \/ m' = 7 \/
            m' = 8 \/ m' = 9 \/ m' = 10 \/ m' = 11 \/ m' = 12) as Hc' by lia.
    destruct (is_leap y);
      repeat (destruct Hc as [-> | Hc]); try subst m;
      repeat (destruct Hc' as [-> | Hc']); try subst m'; simpl in *; lia. }
  f_equal. lia.
Qed.

Lemma ord2ymd_ymd2ord y m d :
  valid_date y m d = true -> ord2ymd (ymd2ord y m d) = (y, m, d).
Proof.
  intros Hv. pose proof (ord2ymd_spec _ (ymd2ord_range y m d Hv)) as Hspec.
  destruct (ord2ymd (ymd2ord y m d)) as [[y' m'] d']. destruct Hspec as [Hv' E].
  apply ymd2ord_inj; assumption.
Qed.

(** Adding no day gives the date back. *)
Lemma add_days_zero dt : valid dt = true -> add_days dt 0 = Some dt.
Proof.
  intros Hv. pose proof (toordinal_range dt Hv) as Hr.
  pose proof Hv as (Hd & Hh & Hm & Hs)%valid_spec.
  unfold add_days. rewrite Z.add_0_r.
  destruct (Z.ltb_spec 0 (toordinal dt)); [|lia].
  destruct (Z.leb_spec (toordinal dt) MAXORDINAL); [|lia]. simpl.
  unfold toordinal. rewrite (ord2ymd_ymd2ord _ _ _ Hd).
  assert ((hour dt * 3600 + minute dt * 60 + second dt) / 3600 = hour dt) as -> by divmod.
  assert ((hour dt * 3600 + minute dt * 60 + second dt) mod 3600 / 60 = minute dt) as ->
    by divmod.
  assert ((hour dt * 3600 + minute dt * 60 + second dt) mod 3600 mod 60 = second dt) as ->
    by divmod.
  destruct dt; reflexivity.
Qed.

(** A date at most six days before a date of the year 1001 or later
    is not before the year 1000. *)
Lemma year_near dt dt' :
  valid dt = true -> valid dt' = true ->
  toordinal dt - 6 <= toordinal dt' -> 1001 <= year dt -> 1000 <= year dt'.
Proof.
  intros (Hd & _)%valid_spec (Hd' & _)%valid_spec Hord Hy.
  apply valid_date_spec in Hd as (_ & Hm & Hday).
  apply valid_date_spec in Hd' as (_ & Hm' & Hday').
  pose proof (day_of_year_range _ _ _ Hm Hday) as R.
  pose proof (day_of_year_range _ _ _ Hm' Hday') as R'.
  unfold toordinal, ymd2ord in Hord.
  destruct (Z.le_gt_cases 1000 (year dt')) as [Hok | Hlow]; [exact Hok | exfalso].
  pose proof (days_before_year_mono (year dt' + 1) 1000 ltac:(lia)) as M1.
  pose proof (days_before_year_mono 1001 (year dt) ltac:(lia)) as M2.
  rewrite days_before_year_succ in M1.
  change (days_before_year 1001) with (days_before_year 1000 + 365) in M2.
  lia.
Qed.

End CalendarOrder.

(** ** The masking functions at their edges *)

(** X14: a field that does not parse makes each of the three masking
    functions return [None] after logging one error, without drawing a
    random number. *)
Theorem unparsable_field_fails date_str date_format e st :
  strptime date_str date_format = Raise e ->
  forall shift_days bucket_interval,
    shift_date date_str date_format shift_days st =
      (Ok None, add_log ERROR (failure_message date_str e) st) /\
    bucket_date date_str date_format bucket_interval st =
      (Ok None, add_log ERROR (failure_message date_str e) st) /\
    randomize_time date_str date_format st =
      (Ok None, add_log ERROR (failure_message date_str e) st).
Proof.
  intros Hparse shift_days bucket_interval.
  pose proof (strptime_raises _ _ _ Hparse) as Hexn.
  unfold shift_date, bucket_date, randomize_time, except_log, try_except, bind, of_result.
  rewrite Hparse. unfold raise. rewrite Hexn.
  destruct e; repeat split; discriminate.
Qed.

Lemma unparsable_field_fails_witness :
  strptime "not-a-date" iso_date = Raise ValueError /\
  forall shift_days bucket_interval,
    shift_date "not-a-date" iso_date shift_days idle =
      (Ok None, add_log ERROR (ErrorParsingDate "not-a-date" ValueError) idle) /\
    bucket_date "not-a-date" iso_date bucket_interval idle =
      (Ok None, add_log ERROR (ErrorParsingDate "not-a-date" ValueError) idle) /\
    randomize_time "not-a-date" iso_date idle =
      (Ok None, add_log ERROR (ErrorParsingDate "not-a-date" ValueError) idle).
Proof.
  split; [reflexivity|].
  apply (unparsable_field_fails "not-a-date" iso_date ValueError idle). reflexivity.
Defined.

(** X11: with a negative [shift_days] the range of [randint] is empty:
    [shift_date] fails on every date, valid or not, logs the
    [ValueError] as a date that does not parse, and draws nothing. *)
Theorem shift_date_negative date_str date_format shift_days dt st :
  strptime date_str date_format = Ok dt -> shift_days < 0 ->
  shift_date date_str date_format shift_days st =
    (Ok None, add_log ERROR (ErrorParsingDate date_str ValueError) st).
Proof.
  intros Hparse Hneg.
  unfold shift_date, except_log, try_except, bind, of_result. rewrite Hparse.
  unfold ret, randint. destruct (Z.ltb_spec shift_days (- shift_days)); [|lia].
  reflexivity.
Qed.

Lemma shift_date_negative_witness :
  strptime "2023-01-15" iso_date = Ok (mkdt 2023 1 15 0 0 0) /\ -3 < 0 /\
  shift_date "2023-01-15" iso_date (-3) idle =
    (Ok None, add_log ERROR (ErrorParsingDate "2023-01-15" ValueError) idle).
Proof.
  split; [reflexivity|]. split; [lia|].
  apply (shift_date_negative "2023-01-15" iso_date (-3) (mkdt 2023 1 15 0 0 0) idle);
    [reflexivity | lia].
Defined.

(** X16: with [shift_days] 0 the only draw is 0: [shift_date] returns
    the date it read, in canonical text, and still uses up one draw. *)
Theorem shift_date_zero date_str date_format dt st :
  strptime date_str date_format = Ok dt ->
  shift_date date_str date_format 0 st =
    (Ok (Some (strftime dt date_format)), next_draw st).
Proof.
  intros Hparse. rewrite (shift_date_eval _ _ _ Hparse) by lia.
  change (0 - - 0 + 1) with 1. rewrite Z.mod_1_r. simpl.
  rewrite add_days_zero; [reflexivity|]. apply strptime_Ok in Hparse. tauto.
Qed.

Lemma shift_date_zero_witness :
  strptime "2023-1-5" iso_date = Ok (mkdt 2023 1 5 0 0 0) /\
  shift_date "2023-1-5" iso_date 0 idle = (Ok (Some "2023-01-05"), next_draw idle).
Proof.
  split; [reflexivity|].
  apply (shift_date_zero "2023-1-5" iso_date (mkdt 2023 1 5 0 0 0) idle). reflexivity.
Defined.

(** X12: when the drawn shift leaves the years 1..9999, [shift_date]
    returns [None] and logs the [OverflowError] as an unexpected
    error; the draw is used up. *)
Theorem shift_date_overflow date_str date_format shift_days dt st :
  strptime date_str date_format = Ok dt -> 0 <= shift_days ->
  ~ (1 <= toordinal dt + (- shift_days + draws st 0%nat mod (shift_days - - shift_days + 1))
       <= MAXORDINAL) ->
  shift_date date_str date_format shift_days st =
    (Ok None, add_log ERROR (UnexpectedError OverflowError) (next_draw st)).
Proof.
  intros Hparse Hpos Hout. rewrite (shift_date_eval _ _ _ Hparse) by lia.
  apply add_days_None in Hout. rewrite Hout. reflexivity.
Qed.

Lemma shift_date_overflow_witness :
  strptime "0001-01-01" iso_date = Ok (mkdt 1 1 1 0 0 0) /\ 0 <= 1 /\
  ~ (1 <= toordinal (mkdt 1 1 1 0 0 0) + (- 1 + draws idle 0%nat mod (1 - - 1 + 1))
       <= MAXORDINAL) /\
  shift_date "0001-01-01" iso_date 1 idle =
    (Ok None, add_log ERROR (UnexpectedError OverflowError) (next_draw idle)).
Proof.
  split; [reflexivity|]. split; [lia|].
  assert (~ (1 <= toordinal (mkdt 1 1 1 0 0 0) + (- 1 + draws idle 0%nat mod (1 - - 1 + 1))
               <= MAXORDINAL)) as Hout by (vm_compute; intros [H _]; apply H; reflexivity).
  split; [exact Hout|].
  apply (shift_date_overflow "0001-01-01" iso_date 1 (mkdt 1 1 1 0 0 0) idle);
    [reflexivity | lia | exact Hout].
Defined.

(** X13: an interval other than day, week and month makes
    [bucket_date] return [None] for a date that parses, with the
    interval logged as invalid. *)
Theorem bucket_date_invalid_interval date_str date_format bucket_interval dt st :
  strptime date_str date_format = Ok dt ->
  bucket_interval <> "day" -> bucket_interval <> "week" -> bucket_interval <> "month" ->
  bucket_date date_str date_format bucket_interval st =
    (Ok None, add_log ERROR (InvalidBucketInterval bucket_interval) st).
Proof.
  intros Hparse Hday%String.eqb_neq Hweek%String.eqb_neq Hmonth%String.eqb_neq.
  unfold bucket_date, except_log, try_except, bind, of_result. rewrite Hparse.
  unfold ret. rewrite Hday, Hweek, Hmonth. reflexivity.
Qed.

Lemma bucket_date_invalid_interval_witness :
  strptime "2023-01-15" iso_date = Ok (mkdt 2023 1 15 0 0 0) /\
  bucket_date "2023-01-15" iso_date "year" idle =
    (Ok None, add_log ERROR (InvalidBucketInterval "year") idle).
Proof.
  split; [reflexivity|].
  apply (bucket_date_invalid_interval "2023-01-15" iso_date "year" (mkdt 2023 1 15 0 0 0)
           idle); [reflexivity | discriminate..].
Defined.

(** The dates [bucket_date] writes, and how they read back. *)
Lemma bucket_month_first_date date_str date_format dt st :
  strptime date_str date_format = Ok dt -> 1000 <= year dt ->
  exists first,
    bucket_date date_str date_format "month" st =
      (Ok (Some (strftime first date_format)), st) /\
    valid first = true /\ day first = 1 /\
    strptime (strftime first date_format) date_format = Ok first.
Proof.
  intros Hparse Hy. pose proof (strptime_Ok _ _ _ Hparse) as (Hv & _ & Hdef).
  exists (mkdt (year dt) (month dt) 1 (hour dt) (minute dt) (second dt)).
  assert (valid (mkdt (year dt) (month dt) 1 (hour dt) (minute dt) (second dt)) = true)
    as Hv'.
  { pose proof (replace_day_first dt Hv) as Hrep. unfold replace_day in Hrep.
    apply make_Some in Hrep. tauto. }
  split; [apply bucket_date_month, Hparse|]. repeat split; try assumption.
  apply (strptime_strftime_masked _ _ _ _ Hparse Hv' Hy).
  intros [] Hno; simpl; try reflexivity.
  specialize (Hdef dir_d Hno). simpl in Hdef. congruence.
Qed.

Lemma bucket_week_date date_str date_format dt st :
  strptime date_str date_format = Ok dt -> 1001 <= year dt ->
  exists monday,
    bucket_date date_str date_format "week" st =
      (Ok (Some (strftime monday date_format)), st) /\
    valid monday = true /\ weekday monday = 0 /\
    (has date_format dir_Y && has date_format dir_m && has date_format dir_d = true ->
     strptime (strftime monday date_format) date_format = Ok monday).
Proof.
  intros Hparse Hy. pose proof (strptime_Ok _ _ _ Hparse) as (Hv & _).
  destruct (bucket_date_week _ _ _ Hparse st) as (monday & Hadd & Hrun).
  destruct (start_of_week_spec dt Hv) as (monday' & Hadd' & Hv' & Hwd & Hord & HH & HM & HS).
  rewrite Hadd in Hadd'. injection Hadd' as <-.
  exists monday. repeat split; try assumption.
  intros Hhas. apply andb_true_iff in Hhas as [[HY Hm]%andb_true_iff Hd].
  assert (1000 <= year monday) as Hy' by (apply (year_near dt); [assumption.. | lia | lia]).
  apply (strptime_strftime_masked _ _ _ _ Hparse Hv' Hy').
  intros [] Hno; simpl; congruence.
Qed.

(** X15: from the year 1000 on bucketing is idempotent.  For a date of
    the year 1000 or later the text [bucket_date] returns for the
    month is returned unchanged when bucketed by month again; for a
    date of the year 1001 or later so is the text it returns for the
    week, when the pattern holds year, month and day. *)
Theorem bucket_date_idempotent date_str date_format dt st :
  strptime date_str date_format = Ok dt ->
  (1000 <= year dt ->
   exists out,
      bucket_date date_str date_format "month" st = (Ok (Some out), st) /\
      bucket_date out date_format "month" st = (Ok (Some out), st)) /\
  (1001 <= year dt ->
   has date_format dir_Y && has date_format dir_m && has date_format dir_d = true ->
   exists out,
      bucket_date date_str date_format "week" st = (Ok (Some out), st) /\
      bucket_date out date_format "week" st = (Ok (Some out), st)).
Proof.
  intros Hparse. split.
  - intros Hy. destruct (bucket_month_first_date _ _ _ st Hparse Hy)
      as (first & Hrun & Hv & Hday & Hre).
    exists (strftime first date_format). split; [exact Hrun|].
    rewrite (bucket_date_month _ _ _ Hre). do 3 f_equal.
    destruct first; simpl in *; subst; reflexivity.
  - intros Hy Hhas.
    destruct (bucket_week_date _ _ _ st Hparse Hy) as (monday & Hrun & Hv & Hwd & Hre).
    exists (strftime monday date_format). split; [exact Hrun|].
    specialize (Hre Hhas).
    destruct (bucket_date_week _ _ _ Hre st) as (monday' & Hadd & ->).
    rewrite Hwd in Hadd. change (- 0) with 0 in Hadd. rewrite (add_days_zero _ Hv) in Hadd.
    injection Hadd as <-. reflexivity.
Qed.

Lemma bucket_date_idempotent_witness :
  strptime "2023-01-15" iso_date = Ok (mkdt 2023 1 15 0 0 0) /\
  (1000 <= 2023 ->
   exists out,
      bucket_date "2023-01-15" iso_date "month" idle = (Ok (Some out), idle) /\
      bucket_date out iso_date "month" idle = (Ok (Some out), idle)) /\
  (1001 <= 2023 ->
   has iso_date dir_Y && has iso_date dir_m && has iso_date dir_d = true ->
   exists out,
      bucket_date "2023-01-15" iso_date "week" idle = (Ok (Some out), idle) /\
      bucket_date out iso_date "week" idle = (Ok (Some out), idle)).
Proof.
  split; [reflexivity|].
  apply (bucket_date_idempotent "2023-01-15" iso_date (mkdt 2023 1 15 0 0 0) idle).
  reflexivity.
Defined.

(** X20: bucketing groups dates.  Two fields with the same time of day
    get the same text by month when they lie in the same month of the
    same year, and the same text by week when they lie in the same
    week (their Mondays are the same day). *)
Theorem bucket_date_groups s1 s2 date_format dt1 dt2 st :
  strptime s1 date_format = Ok dt1 -> strptime s2 date_format = Ok dt2 ->
  hour dt1 = hour dt2 -> minute dt1 = minute dt2 -> second dt1 = second dt2 ->
  (year dt1 = year dt2 -> month dt1 = month dt2 ->
   bucket_date s1 date_format "month" st = bucket_date s2 date_format "month" st) /\
  (toordinal dt1 - weekday dt1 = toordinal dt2 - weekday dt2 ->
   bucket_date s1 date_format "week" st = bucket_date s2 date_format "week" st).
Proof.
  intros H1 H2 HH HM HS. split.
  - intros Hy Hm. rewrite (bucket_date_month _ _ _ H1), (bucket_date_month _ _ _ H2).
    rewrite Hy, Hm, HH, HM, HS. reflexivity.
  - intros Hweek.
    destruct (bucket_date_week _ _ _ H1 st) as (m1 & Hadd1 & ->).
    destruct (bucket_date_week _ _ _ H2 st) as (m2 & Hadd2 & ->).
    assert (add_days dt1 (- weekday dt1) = add_days dt2 (- weekday dt2)) as E.
    { unfold add_days. rewrite HH, HM, HS.
      replace (toordinal dt1 + - weekday dt1) with (toordinal dt2 + - weekday dt2) by lia.
      reflexivity. }
    rewrite Hadd1, Hadd2 in E. injection E as ->. reflexivity.
Qed.

Lemma bucket_date_groups_witness :
  strptime "2023-01-15" iso_date = Ok (mkdt 2023 1 15 0 0 0) /\
  strptime "2023-01-10" iso_date = Ok (mkdt 2023 1 10 0 0 0) /\
  bucket_date "2023-01-15" iso_date "month" idle =
    bucket_date "2023-01-10" iso_date "month" idle /\
  bucket_date "2023-01-15" iso_date "week" idle =
    bucket_date "2023-01-10" iso_date "week" idle.
Proof.
  split; [reflexivity|]. split; [reflexivity|].
  destruct (bucket_date_groups "2023-01-15" "2023-01-10" iso_date (mkdt 2023 1 15 0 0 0)
              (mkdt 2023 1 10 0 0 0) idle) as [Hmonth Hweek]; try reflexivity.
  split; [apply Hmonth; reflexivity | apply Hweek; reflexivity].
Defined.

(** X19: [randomize_time] writes nothing of the time it read: two
    fields of the same day get the same text from the same state of
    the generator, whatever their times of day. *)
Theorem randomize_time_hides_time s1 s2 date_format dt1 dt2 st :
  strptime s1 date_format = Ok dt1 -> strptime s2 date_format = Ok dt2 ->
  year dt1 = year dt2 -> month dt1 = month dt2 -> day dt1 = day dt2 ->
  randomize_time s1 date_format st = randomize_time s2 date_format st.
Proof.
  intros H1 H2 Hy Hm Hd.
  rewrite (randomize_time_eval _ _ _ H1), (randomize_time_eval _ _ _ H2).
  rewrite Hy, Hm, Hd. reflexivity.
Qed.

Lemma randomize_time_hides_time_witness :
  strptime "2023-01-15 10:30:00" iso_datetime = Ok (mkdt 2023 1 15 10 30 0) /\
  strptime "2023-01-15 23:59:59" iso_datetime = Ok (mkdt 2023 1 15 23 59 59) /\
  randomize_time "2023-01-15 10:30:00" iso_datetime idle =
    randomize_time "2023-01-15 23:59:59" iso_datetime idle.
Proof.
  split; [reflexivity|]. split; [reflexivity|].
  apply (randomize_time_hides_time "2023-01-15 10:30:00" "2023-01-15 23:59:59" iso_datetime
           (mkdt 2023 1 15 10 30 0) (mkdt 2023 1 15 23 59 59) idle); reflexivity.
Defined.

(** ** The loop of [process_data] *)

Section Loop.

Variables (outfile : string) (column_index : Z) (date_format : format).
Variables (shift_days : Z) (bucket_interval : option string) (randomize_time_flag : bool).

Local Abbreviation body := (process_line outfile column_index date_format shift_days
                                         bucket_interval randomize_time_flag).

(** The loop body returns, or raises [IndexError] before it has done
    anything; it raises exactly on the lines [index_error] marks. *)
Lemma process_line_outcome line st :
  if index_error column_index line
  then body line st = (Raise IndexError, st)
  else exists st', body line st = (Ok tt, st') /\
                   forall p, p <> outfile -> files st' !! p = files st !! p.
Proof.
  rewrite process_line_cases. unfold index_error.
  set (l := strip line). set (parts := split "," l).
  destruct (is_empty l); simpl.
  { eexists. split; [reflexivity|]. intros p Hp. simpl. apply lookup_insert_ne. congruence. }
  destruct (Z.ltb_spec column_index (- Z.of_nat (length parts))) as [Hbad|Hgood].
  - destruct (Z.leb_spec (Z.of_nat (length parts)) column_index); [lia|].
    unfold py_index.
    destruct (Z.leb_spec 0 column_index); [lia|].
    destruct (Z.ltb_spec column_index 0); [|lia].
    destruct (Z.leb_spec (- Z.of_nat (length parts)) column_index); [lia|]. reflexivity.
  - destruct (Z.leb_spec (Z.of_nat (length parts)) column_index).
    { eexists. split; [reflexivity|]. intros p Hp. simpl. apply lookup_insert_ne.
      congruence. }
    assert (exists i, py_index (length parts) column_index = Some i) as [i ->].
    { unfold py_index.
      destruct (Z.leb_spec 0 column_index); destruct (Z.ltb_spec column_index (Z.of_nat (length parts)));
        simpl; try lia; eauto.
      destruct (Z.ltb_spec column_index 0); [|lia].
      destruct (Z.leb_spec (- Z.of_nat (length parts)) column_index); [|lia].
      simpl. eauto. }
    destruct (mask_returns (strip (nth i parts EmptyString)) date_format shift_days
                bucket_interval randomize_time_flag st) as (r & st1 & -> & Hfiles & _).
    destruct r; (eexists; split; [reflexivity|]; intros p Hp; simpl;
                 rewrite lookup_insert_ne by congruence; rewrite Hfiles; reflexivity).
Qed.

(** The loop stops at the first line that raises; otherwise it runs
    through. *)
Lemma for_each_outcome lines : forall st,
  if existsb (index_error column_index) lines
  then exists st', for_each lines body st = (Raise IndexError, st') /\
                   forall p, p <> outfile -> files st' !! p = files st !! p
  else exists st', for_each lines body st = (Ok tt, st') /\
                   forall p, p <> outfile -> files st' !! p = files st !! p.
Proof.
  induction lines as [|line lines IH]; intros st; simpl.
  - eexists. split; [reflexivity|]. reflexivity.
  - pose proof (process_line_outcome line st) as Hline. unfold bind.
    destruct (index_error column_index line); simpl.
    + rewrite Hline. eexists. split; [reflexivity|]. reflexivity.
    + destruct Hline as (st1 & -> & Hfiles). specialize (IH st1).
      destruct (existsb (index_error column_index) lines);
        destruct IH as (st' & -> & Hfiles'); eexists; (split; [reflexivity|]);
        intros p Hp; rewrite Hfiles', Hfiles by exact Hp; reflexivity.
Qed.

Lemma index_error_nonneg line : 0 <= column_index -> index_error column_index line = false.
Proof.
  intros Hci. unfold index_error.
  destruct (Z.ltb_spec column_index (- Z.of_nat (length (split "," (strip line))))); [lia|].
  apply andb_false_r.
Qed.

Lemma no_index_error_nonneg lines :
  0 <= column_index -> existsb (index_error column_index) lines = false.
Proof.
  intros Hci. induction lines as [|line lines IH]; [reflexivity|].
  simpl. rewrite index_error_nonneg by exact Hci. exact IH.
Qed.

Variables (input_file : string).

Local Abbreviation run_data := (process_data input_file outfile column_index date_format
                                             shift_days bucket_interval randomize_time_flag).

(** [process_data], stage by stage. *)
Lemma process_data_missing st :
  files st !! input_file = None ->
  run_data st =
    (Ok 1, add_log ERROR (InputFileNotFound input_file) (add_event (OpenRead input_file) st)).
Proof.
  intros Hin. unfold process_data, try_except, bind, open_read. rewrite Hin. reflexivity.
Qed.

Lemma process_data_denied c st :
  files st !! input_file = Some c -> outfile ∈ read_only st ->
  run_data st =
    (Ok 1, add_log ERROR (UnexpectedError PermissionError)
             (add_event (OpenWrite outfile) (add_event (OpenRead input_file) st))).
Proof.
  intros Hin Hro. unfold process_data, try_except, bind, open_read, open_write.
  rewrite Hin. simpl. destruct (decide (outfile ∈ read_only st)); [reflexivity | contradiction].
Qed.

Lemma process_data_opened c st :
  files st !! input_file = Some c -> outfile ∉ read_only st ->
  let st0 := add_event (OpenWrite outfile)
               (set_files (<[outfile := EmptyString]> (files st))
                          (add_event (OpenRead input_file) st)) in
  run_data st =
    match for_each (readlines (content input_file st0)) body st0 with
    | (Ok _, st') => (Ok 0, st')
    | (Raise e, st') =>
        if is_Exception e
        then (Ok 1, add_log ERROR (match e with
                                   | FileNotFoundError => InputFileNotFound input_file
                                   | _ => UnexpectedError e
                                   end) st')
        else (Raise e, st')
    end.
Proof.
  intros Hin Hro st0. unfold process_data, try_except, bind, open_read, open_write.
  rewrite Hin. simpl. destruct (decide (outfile ∈ read_only st)); [contradiction|].
  unfold read_lines. fold st0.
  destruct (for_each _ body st0) as [[[]|e] st']; [reflexivity|].
  destruct e; reflexivity.
Qed.

(** X4: [process_data] never raises: it returns 0 or 1. *)
Theorem process_data_returns st :
  exists r st',
    process_data input_file outfile column_index date_format shift_days
                 bucket_interval randomize_time_flag st = (Ok r, st') /\
    (r = 0 \/ r = 1).
Proof.
  destruct (files st !! input_file) as [c|] eqn:Hin;
    [|rewrite process_data_missing by exact Hin; eauto].
  destruct (decide (outfile ∈ read_only st)) as [Hro|Hro];
    [rewrite (process_data_denied c) by assumption; eauto|].
  rewrite (process_data_opened c) by assumption. cbv zeta.
  match goal with |- context [for_each ?ls body ?s] =>
    pose proof (for_each_outcome ls s) as Hloop;
    destruct (existsb (index_error column_index) ls)
  end; destruct Hloop as (st' & -> & _); simpl; eauto.
Qed.

(** X8: [process_data] changes no file but the output file: a file
    other than the output file (a path of the model is a file, so
    another path is another file) has the same content afterwards. *)
Theorem process_data_frame st p :
  p <> outfile ->
  files (snd (process_data input_file outfile column_index date_format shift_days
                           bucket_interval randomize_time_flag st)) !! p = files st !! p.
Proof.
  intros Hp.
  destruct (files st !! input_file) as [c|] eqn:Hin;
    [|rewrite process_data_missing by exact Hin; reflexivity].
  destruct (decide (outfile ∈ read_only st)) as [Hro|Hro];
    [rewrite (process_data_denied c) by assumption; reflexivity|].
  rewrite (process_data_opened c) by assumption. cbv zeta.
  match goal with |- context [for_each ?ls body ?s] =>
    pose proof (for_each_outcome ls s) as Hloop;
    destruct (existsb (index_error column_index) ls)
  end; destruct Hloop as (st' & -> & Hfiles); simpl; rewrite Hfiles by exact Hp;
    simpl; apply lookup_insert_ne; congruence.
Qed.

(** X5: when the input file does not exist, [process_data] returns 1
    with the error logged, and the output file is neither created nor
    truncated: no file changes at all. *)
Theorem process_data_missing_input st :
  files st !! input_file = None ->
  exists st',
    process_data input_file outfile column_index date_format shift_days
                 bucket_interval randomize_time_flag st = (Ok 1, st') /\
    files st' = files st /\
    trace st' = trace st ++ [OpenRead input_file] /\
    log st' = log st ++ [(ERROR, InputFileNotFound input_file)].
Proof.
  intros Hin. rewrite process_data_missing by exact Hin. eexists. repeat split.
Qed.

Lemma for_each_keeps_output lines : forall st,
  0 <= column_index -> is_Some (files st !! outfile) ->
  exists st', for_each lines body st = (Ok tt, st') /\ is_Some (files st' !! outfile).
Proof.
  induction lines as [|line lines IH]; intros st Hci Hst.
  - exists st. split; [reflexivity | exact Hst].
  - simpl. unfold bind. rewrite process_line_cases.
    assert (forall text s', is_Some (files (append_file outfile text s') !! outfile))
      as Happ by (intros text s'; simpl; rewrite lookup_insert_eq; eauto).
    destruct (is_empty (strip line)); [apply IH; [exact Hci | apply Happ]|].
    destruct (_ <=? column_index) eqn:Hshort; [apply IH; [exact Hci | apply Happ]|].
    apply Z.leb_gt in Hshort.
    assert (exists i, py_index (length (split "," (strip line))) column_index = Some i)
      as [i ->].
    { unfold py_index. destruct (Z.leb_spec 0 column_index); [|lia].
      destruct (Z.ltb_spec column_index (Z.of_nat (length (split "," (strip line)))));
        [|lia]. simpl. eauto. }
    destruct (mask_returns (strip (nth i (split "," (strip line)) EmptyString)) date_format
                shift_days bucket_interval randomize_time_flag st)
      as (r & s1 & -> & Hfiles & _).
    destruct r; (apply IH; [exact Hci | apply Happ]).
Qed.

(** X7: with a column index that is not negative, an input file of
    ASCII text (which decodes in every locale) and an output file that
    can be written, [process_data] returns 0 whatever the lines hold,
    and the output file exists afterwards: no line stops the run. *)
Theorem process_data_succeeds c st :
  files st !! input_file = Some c -> ascii_text c = true ->
  outfile ∉ read_only st -> 0 <= column_index ->
  exists st',
    process_data input_file outfile column_index date_format shift_days
                 bucket_interval randomize_time_flag st = (Ok 0, st') /\
    is_Some (files st' !! outfile).
Proof.
  intros Hin _ Hro Hci. rewrite (process_data_opened c) by assumption. cbv zeta.
  match goal with |- context [for_each ?ls body ?s] =>
    destruct (for_each_keeps_output ls s Hci) as (st' & -> & Hout)
  end; [simpl; rewrite lookup_insert_eq; eauto|].
  eauto.
Qed.

(** X10: with a negative column index, one line of the input that is
    not blank and has fewer fields than the index reaches back stops
    the run: [process_data] returns 1, and the [IndexError] is the
    last error logged. *)
Theorem process_data_index_error c st :
  files st !! input_file = Some c -> outfile ∉ read_only st -> input_file <> outfile ->
  existsb (index_error column_index) (readlines c) = true ->
  exists st',
    process_data input_file outfile column_index date_format shift_days
                 bucket_interval randomize_time_flag st = (Ok 1, st') /\
    last (log st') = Some (ERROR, UnexpectedError IndexError).
Proof.
  intros Hin Hro Hne Hbad. rewrite (process_data_opened c) by assumption. cbv zeta.
  assert (content input_file
            (add_event (OpenWrite outfile)
               (set_files (<[outfile := EmptyString]> (files st))
                          (add_event (OpenRead input_file) st))) = c) as ->.
  { unfold content. simpl. rewrite lookup_insert_ne by congruence. rewrite Hin. reflexivity. }
  match goal with |- context [for_each ?ls body ?s] =>
    pose proof (for_each_outcome ls s) as Hloop
  end.
  rewrite Hbad in Hloop. destruct Hloop as (st' & -> & _). simpl.
  eexists. split; [reflexivity|]. simpl. apply last_snoc.
Qed.

End Loop.

Lemma process_data_missing_input_witness :
  files idle !! "in.csv" = None /\
  exists st',
    process_data "in.csv" "out.csv" 1 iso_date 0 (Some "month") false idle = (Ok 1, st') /\
    files st' = files idle /\
    trace st' = trace idle ++ [OpenRead "in.csv"] /\
    log st' = log idle ++ [(ERROR, InputFileNotFound "in.csv")].
Proof.
  split; [reflexivity|].
  apply (process_data_missing_input "out.csv" 1 iso_date 0 (Some "month") false "in.csv" idle).
  reflexivity.
Defined.

Lemma process_data_succeeds_witness :
  files (with_input sample_line) !! "in.csv" = Some sample_line /\
  ascii_text sample_line = true /\
  ("out.csv" ∉ read_only (with_input sample_line)) /\ 0 <= 1 /\
  exists st',
    process_data "in.csv" "out.csv" 1 iso_date 0 (Some "month") false
                 (with_input sample_line) = (Ok 0, st') /\
    is_Some (files st' !! "out.csv").
Proof.
  assert ("out.csv" ∉ read_only (with_input sample_line)) as Hro
    by (simpl; apply not_elem_of_empty).
  split; [reflexivity|]. split; [reflexivity|]. split; [exact Hro|]. split; [lia|].
  apply (process_data_succeeds "out.csv" 1 iso_date 0 (Some "month") false "in.csv"
           sample_line (with_input sample_line));
    [reflexivity | reflexivity | exact Hro | lia].
Defined.

Lemma process_data_index_error_witness :
  files (with_input sample_line) !! "in.csv" = Some sample_line /\
  ("out.csv" ∉ read_only (with_input sample_line)) /\ "in.csv" <> "out.csv" /\
  existsb (index_error (-4)) (readlines sample_line) = true /\
  exists st',
    process_data "in.csv" "out.csv" (-4) iso_date 0 (Some "month") false
                 (with_input sample_line) = (Ok 1, st') /\
    last (log st') = Some (ERROR, UnexpectedError IndexError).
Proof.
  assert ("out.csv" ∉ read_only (with_input sample_line)) as Hro
    by (simpl; apply not_elem_of_empty).
  assert ("in.csv" <> "out.csv") as Hne by discriminate.
  split; [reflexivity|]. split; [exact Hro|]. split; [exact Hne|]. split; [reflexivity|].
  apply (process_data_index_error "out.csv" (-4) iso_date 0 (Some "month") false "in.csv"
           sample_line (with_input sample_line));
    [reflexivity | exact Hro | exact Hne | reflexivity].
Defined.

(** X6: when the input file is also the output file, opening it for
    writing empties it before a line is read: [process_data] returns 0,
    logs nothing, and leaves the file empty. *)
Theorem process_data_in_place path column_index date_format shift_days bucket_interval
    randomize_time_flag c st :
  files st !! path = Some c -> path ∉ read_only st ->
  exists st',
    process_data path path column_index date_format shift_days bucket_interval
                 randomize_time_flag st = (Ok 0, st') /\
    files st' !! path = Some EmptyString /\ log st' = log st.
Proof.
  intros Hin Hro. rewrite (process_data_opened _ _ _ _ _ _ _ c) by assumption. cbv zeta.
  assert (content path
            (add_event (OpenWrite path)
               (set_files (<[path := EmptyString]> (files st))
                          (add_event (OpenRead path) st))) = EmptyString) as ->.
  { unfold content. simpl. rewrite lookup_insert_eq. reflexivity. }
  simpl. eexists. split; [reflexivity|]. simpl. rewrite lookup_insert_eq. auto.
Qed.

Lemma process_data_in_place_witness :
  files (with_input sample_line) !! "in.csv" = Some sample_line /\
  ("in.csv" ∉ read_only (with_input sample_line)) /\
  exists st',
    process_data "in.csv" "in.csv" 1 iso_date 0 (Some "month") false
                 (with_input sample_line) = (Ok 0, st') /\
    files st' !! "in.csv" = Some EmptyString /\ log st' = log (with_input sample_line).
Proof.
  assert ("in.csv" ∉ read_only (with_input sample_line)) as Hro
    by (simpl; apply not_elem_of_empty).
  split; [reflexivity|]. split; [exact Hro|].
  apply (process_data_in_place "in.csv" 1 iso_date 0 (Some "month") false sample_line
           (with_input sample_line)); [reflexivity | exact Hro].
Defined.

(** ** Column indices and fields *)

(** X9: a negative column index counts fields from the end of the
    line: with [n] fields, the index [-k] for [1 <= k <= n] is treated
    as the index [n - k]. *)
Theorem negative_column_index outfile column_index date_format shift_days bucket_interval
    randomize_time_flag line st :
  - Z.of_nat (length (split "," (strip line))) <= column_index < 0 ->
  process_line outfile column_index date_format shift_days bucket_interval
               randomize_time_flag line st =
  process_line outfile (Z.of_nat (length (split "," (strip line))) + column_index)
               date_format shift_days bucket_interval randomize_time_flag line st.
Proof.
  intros Hci. rewrite !process_line_cases.
  set (parts := split "," (strip line)) in *.
  destruct (is_empty (strip line)); [reflexivity|].
  destruct (Z.leb_spec (Z.of_nat (length parts)) column_index); [lia|].
  destruct (Z.leb_spec (Z.of_nat (length parts)) (Z.of_nat (length parts) + column_index));
    [lia|].
  assert (py_index (length parts) column_index =
          Some (Z.to_nat (Z.of_nat (length parts) + column_index))) as ->.
  { unfold py_index. destruct (Z.leb_spec 0 column_index); [lia|].
    destruct (Z.ltb_spec column_index 0); [|lia].
    destruct (Z.leb_spec (- Z.of_nat (length parts)) column_index); [|lia]. reflexivity. }
  assert (py_index (length parts) (Z.of_nat (length parts) + column_index) =
          Some (Z.to_nat (Z.of_nat (length parts) + column_index))) as ->.
  { unfold py_index.
    destruct (Z.leb_spec 0 (Z.of_nat (length parts) + column_index)); [|lia].
    destruct (Z.ltb_spec (Z.of_nat (length parts) + column_index) (Z.of_nat (length parts)));
      [|lia]. reflexivity. }
  reflexivity.
Qed.

Lemma negative_column_index_witness :
  - Z.of_nat (length (split "," (strip sample_line))) <= -2 < 0 /\
  process_line "out.csv" (-2) iso_date 0 (Some "month") false sample_line idle =
  process_line "out.csv" (Z.of_nat (length (split "," (strip sample_line))) + -2)
               iso_date 0 (Some "month") false sample_line idle.
Proof.
  assert (- Z.of_nat (length (split "," (strip sample_line))) <= -2 < 0) as H
    by (vm_compute; split; discriminate || reflexivity).
  split; [exact H|].
  apply (negative_column_index "out.csv" (-2) iso_date 0 (Some "month") false sample_line
           idle H).
Defined.

(** X17: the value written into the target column never starts or
    ends with whitespace, and holds no comma unless the field did:
    whatever strategy runs, the whitespace around the field is
    dropped. *)
Theorem masked_field_is_clean field date_format shift_days bucket_interval
    randomize_time_flag st masked st1 :
  mask (strip field) date_format shift_days bucket_interval randomize_time_flag st =
    (Ok (Some masked), st1) ->
  starts_space masked = false /\ ends_space masked = false /\
  (no_comma field = true -> no_comma masked = true).
Proof.
  intros Hmask.
  destruct (mask_returns (strip field) date_format shift_days bucket_interval
              randomize_time_flag st) as (r & st' & Hm & _ & Hfrom).
  rewrite Hmask in Hm. injection Hm as <- <-.
  destruct (masked_from_clean _ _ _ (Hfrom masked eq_refl)) as (Hc & Hs & He).
  split; [apply Hs, strip_starts|]. split; [apply He, strip_ends|].
  intros Hfield. apply Hc, strip_no_comma, Hfield.
Qed.

Lemma masked_field_is_clean_witness :
  mask (strip " 2023-1-5 ") iso_date 0 (Some "month") false idle =
    (Ok (Some "2023-01-01"), idle) /\
  starts_space "2023-01-01" = false /\ ends_space "2023-01-01" = false /\
  (no_comma " 2023-1-5 " = true -> no_comma "2023-01-01" = true).
Proof.
  split; [reflexivity|].
  apply (masked_field_is_clean " 2023-1-5 " iso_date 0 (Some "month") false idle
           "2023-01-01" idle).
  reflexivity.
Defined.

(** X18: called with no strategy at all, [process_data] still rewrites
    a line that has the column: the field is written without the
    whitespace around it, nothing is logged and no number is drawn. *)
Theorem no_strategy_strips_field outfile column_index date_format shift_days bucket_interval
    line st i :
  shift_days <= 0 -> truthy bucket_interval = false ->
  is_empty (strip line) = false ->
  column_index < Z.of_nat (length (split "," (strip line))) ->
  py_index (length (split "," (strip line))) column_index = Some i ->
  process_line outfile column_index date_format shift_days bucket_interval false line st =
    (Ok tt,
     append_file outfile
       (String.append
          (join "," (<[i := strip (nth i (split "," (strip line)) EmptyString)]>
                       (split "," (strip line))))
          newline) st).
Proof.
  intros Hs Hb Hne Hlong Hi. rewrite process_line_cases, Hne.
  apply Z.leb_gt in Hlong. rewrite Hlong, Hi.
  unfold mask. apply Z.ltb_ge in Hs. rewrite Hs, Hb. reflexivity.
Qed.

Lemma no_strategy_strips_field_witness :
  0 <= 0 /\ truthy None = false /\ is_empty (strip "a, b ,c") = false /\
  1 < Z.of_nat (length (split "," (strip "a, b ,c"))) /\
  py_index (length (split "," (strip "a, b ,c"))) 1 = Some 1%nat /\
  process_line "out.csv" 1 iso_date 0 None false "a, b ,c" idle =
    (Ok tt, append_file "out.csv" (String.append "a,b,c" newline) idle).
Proof.
  split; [lia|]. split; [reflexivity|]. split; [reflexivity|].
  split; [vm_compute; reflexivity|]. split; [reflexivity|].
  apply (no_strategy_strips_field "out.csv" 1 iso_date 0 None "a, b ,c" idle 1%nat);
    [lia | reflexivity | reflexivity | vm_compute; reflexivity | reflexivity].
Defined.

(** ** The checks and the exit status of [main] *)

(** X1: without a positive shift, a bucket interval or the randomize
    flag, [main] stops in [parser.error]: status 2, the usage printed,
    no file opened and nothing logged. *)
Theorem main_no_strategy a st :
  args_shift_days a <= 0 -> truthy (args_bucket_interval a) = false ->
  args_randomize_time a = false ->
  run a st = (2, add_event (PrintUsage at_least_one_msg) st).
Proof.
  intros Hs%Z.ltb_ge Hb Hr. unfold run, main, when, bind. rewrite Hs, Hb, Hr. reflexivity.
Qed.

Lemma main_no_strategy_witness :
  args_shift_days default_args <= 0 /\ truthy (args_bucket_interval default_args) = false /\
  args_randomize_time default_args = false /\
  run default_args idle = (2, add_event (PrintUsage at_least_one_msg) idle).
Proof.
  split; [simpl; lia|]. split; [reflexivity|]. split; [reflexivity|].
  apply (main_no_strategy default_args idle); [simpl; lia | reflexivity | reflexivity].
Defined.

(** X2: with a consistent choice of strategy but no input path or no
    output path, [main] calls [print_help], which raises [ValueError]
    on the %Y of the help text of [--date_format]: nobody catches it,
    so the process ends with status 1 before [sys.exit(1)] is reached,
    and the help is not printed; no file is opened and nothing is
    logged. *)
Theorem main_missing_paths a st :
  (0 <? args_shift_days a) || truthy (args_bucket_interval a) || args_randomize_time a = true ->
  (0 <? args_shift_days a) && truthy (args_bucket_interval a) = false ->
  truthy (args_input_file a) && truthy (args_output_file a) = false ->
  main a st = (Raise ValueError, st) /\ run a st = (1, st).
Proof.
  intros Hone Hexcl Hpaths. unfold run, main, when, bind.
  rewrite Hone, Hexcl, Hpaths. split; reflexivity.
Qed.

Lemma main_missing_paths_witness :
  main (mkargs 0 (Some "month") (Some "in.csv") None iso_date 1 false) idle =
    (Raise ValueError, idle) /\
  run (mkargs 0 (Some "month") (Some "in.csv") None iso_date 1 false) idle = (1, idle).
Proof.
  apply (main_missing_paths (mkargs 0 (Some "month") (Some "in.csv") None iso_date 1 false)
           idle); reflexivity.
Defined.

(** X3: with a consistent choice of strategy and both paths, the exit
    status of [main] is what [process_data] returns, 0 or 1, and the
    completion message is logged exactly when it is 0. *)
Theorem main_exit_status a st :
  (0 <? args_shift_days a) || truthy (args_bucket_interval a) || args_randomize_time a = true ->
  (0 <? args_shift_days a) && truthy (args_bucket_interval a) = false ->
  truthy (args_input_file a) && truthy (args_output_file a) = true ->
  exists r st1,
    process_data (default EmptyString (args_input_file a))
                 (default EmptyString (args_output_file a))
                 (args_column_index a) (args_date_format a) (args_shift_days a)
                 (args_bucket_interval a) (args_randomize_time a) st = (Ok r, st1) /\
    (r = 0 \/ r = 1) /\
    run a st = (r, if r =? 0 then add_log INFO MaskingComplete st1 else st1).
Proof.
  intros Hone Hexcl Hpaths.
  destruct (process_data_returns (default EmptyString (args_output_file a))
              (args_column_index a) (args_date_format a) (args_shift_days a)
              (args_bucket_interval a) (args_randomize_time a)
              (default EmptyString (args_input_file a)) st) as (r & st1 & Hrun & Hr).
  exists r, st1. split; [exact Hrun|]. split; [exact Hr|].
  unfold run, main, when, bind. rewrite Hone, Hexcl, Hpaths. simpl. rewrite Hrun.
  destruct Hr as [-> | ->]; reflexivity.
Qed.

Lemma main_exit_status_witness :
  exists r st1,
    process_data "in.csv" "out.csv" 1 iso_date 0 (Some "month") false
                 (with_input sample_line) = (Ok r, st1) /\
    (r = 0 \/ r = 1) /\
    run bucket_by_month (with_input sample_line) =
      (r, if r =? 0 then add_log INFO MaskingComplete st1 else st1).
Proof.
  apply (main_exit_status bucket_by_month (with_input sample_line)); reflexivity.
Defined.

Lemma process_data_frame_witness :
  "in.csv" <> "out.csv" /\
  files (snd (process_data "in.csv" "out.csv" 1 iso_date 0 (Some "month") false
                           (with_input sample_line))) !! "in.csv" =
  files (with_input sample_line) !! "in.csv".
Proof.
  assert ("in.csv" <> "out.csv") as Hne by discriminate.
  split; [exact Hne|].
  apply (process_data_frame "out.csv" 1 iso_date 0 (Some "month") false "in.csv"
           (with_input sample_line) "in.csv" Hne).
Defined.
